(** * MousePortal: the infinite corridor of [runportal.py]

    A shallow embedding of [runportal.py]: the [DataLogger] CSV sink, the
    [Corridor] with its four lists of panels, and the per-frame [update]
    task of the [MousePortal] application, followed by the properties of
    the segment ring, of the motion controller, of the recycling trigger
    and of the telemetry sink.

    Modelling conventions.
    - Numbers are rationals [Q], and equalities between computed numbers
      are stated with [Qeq] ([==]).  The script is embedded twice.  The
      modules [Panda], [Corridor] and [MousePortal] compute on the
      rationals without rounding; they carry the properties that do not
      depend on how a sum or a product is rounded (order of the panels,
      lockstep of the faces, choice of the velocity, sign of the
      accumulator, the telemetry file).  The module [Rounded] is the same
      code with every rounding written where the platform performs one:
      [double] after each arithmetic operation on a Python [float], and
      [single] where a value is stored in a Panda3D node ([setPos],
      [setY]), which keeps coordinates in single precision.  [Rounded] is
      parametrised by a [Rounding]; [ieee] instantiates it with
      round-to-nearest-even to binary64 and binary32 (exponent unbounded
      above: no overflow, infinity or NaN), and [exact] gives back the
      first embedding.  Properties about the value of a position or of
      the accumulator are stated on [Rounded].
    - A raised exception ([IndexError], [KeyError], [ValueError]) and a
      [while] loop that outruns its fuel are both [None].
    - A Panda3D [NodePath] is a record of the attributes the script sets;
      every handle is held by exactly one slot of one list, so the lists
      hold the records themselves.
    - The file system is a finite map from paths to the lines on disk;
      an open file carries its own unflushed buffer. *)

From Stdlib Require Import QArith Qround Qabs Lqa Lia ZArith List.
From stdpp Require Import base option list strings gmap fin_maps.

Local Open Scope string_scope.

(** Strict comparison of rationals as a boolean ([x < y] in Python). *)
Definition Qlt_bool (x y : Q) : bool :=
  match (x ?= y)%Q with
  | Lt => true
  | _ => false
  end.

(** ** Panda3D scene-graph nodes *)

Module Panda.

(** [CardMaker(name)] with the frame given to [setFrame]. *)
Record CardMaker := mkCardMaker {
  cm_name : string;
  cm_frame : Q * Q * Q * Q
}.

Definition setFrame (cm : CardMaker) (l r b t : Q) : CardMaker :=
  {| cm_name := cm_name cm; cm_frame := (l, r, b, t) |}.

Definition newCardMaker (name : string) : CardMaker :=
  {| cm_name := name; cm_frame := (0, 0, 0, 0)%Q |}.

Record NodePath := mkNodePath {
  np_name : string;
  np_frame : Q * Q * Q * Q;
  np_x : Q;
  np_y : Q;
  np_z : Q;
  np_hpr : Q * Q * Q;
  np_texture : option string
}.

(** [parent.attachNewNode(cm.generate())] *)
Definition attachNewNode (cm : CardMaker) : NodePath :=
  {| np_name := cm_name cm; np_frame := cm_frame cm;
     np_x := 0; np_y := 0; np_z := 0; np_hpr := (0, 0, 0)%Q;
     np_texture := None |}.

Definition setPos (n : NodePath) (x y z : Q) : NodePath :=
  {| np_name := np_name n; np_frame := np_frame n;
     np_x := x; np_y := y; np_z := z; np_hpr := np_hpr n;
     np_texture := np_texture n |}.

Definition setHpr (n : NodePath) (h p r : Q) : NodePath :=
  {| np_name := np_name n; np_frame := np_frame n;
     np_x := np_x n; np_y := np_y n; np_z := np_z n; np_hpr := (h, p, r);
     np_texture := np_texture n |}.

Definition setTexture (n : NodePath) (t : string) : NodePath :=
  {| np_name := np_name n; np_frame := np_frame n;
     np_x := np_x n; np_y := np_y n; np_z := np_z n; np_hpr := np_hpr n;
     np_texture := Some t |}.

Definition getY (n : NodePath) : Q := np_y n.

Definition setY (n : NodePath) (y : Q) : NodePath :=
  {| np_name := np_name n; np_frame := np_frame n;
     np_x := np_x n; np_y := y; np_z := np_z n; np_hpr := np_hpr n;
     np_texture := np_texture n |}.

End Panda.
Import Panda.

(** ** Configuration ([conf.json] once parsed) *)

Record Config := mkConfig {
  cfg_segment_length : Q;
  cfg_corridor_width : Q;
  cfg_wall_height : Q;
  cfg_num_segments : Z;
  cfg_left_wall_texture : string;
  cfg_right_wall_texture : string;
  cfg_ceiling_texture : string;
  cfg_floor_texture : string;
  cfg_window_width : Z;
  cfg_window_height : Z;
  cfg_speed_scaling : option Q;     (* optional key, default 5.0 *)
  cfg_camera_height : option Q;     (* optional key, default 2.0 *)
  cfg_data_logging_file : string
}.

(** ** Python list primitives used by the script *)

(** [l.pop(0)]: the head and the rest; [IndexError] on the empty list. *)
Definition pop0 {A} (l : list A) : option (A * list A) :=
  match l with
  | [] => None
  | x :: l' => Some (x, l')
  end.

(** [l.append(x)] *)
Definition append {A} (l : list A) (x : A) : list A := (l ++ [x])%list.

(** [range(n)] for a Python int [n]: empty when [n <= 0]. *)
Definition range (n : Z) : list Z := map Z.of_nat (seq 0 (Z.to_nat n)).

(** ** Corridor *)

Module Corridor.

Record t := mk {
  segment_length : Q;
  corridor_width : Q;
  wall_height : Q;
  num_segments : Z;
  left_wall_texture : string;
  right_wall_texture : string;
  ceiling_texture : string;
  floor_texture : string;
  left_segments : list NodePath;
  right_segments : list NodePath;
  ceiling_segments : list NodePath;
  floor_segments : list NodePath
}.

Definition set_left_segments (c : t) (l : list NodePath) : t :=
  mk (segment_length c) (corridor_width c) (wall_height c)
    (num_segments c) (left_wall_texture c) (right_wall_texture c)
    (ceiling_texture c) (floor_texture c)
    l (right_segments c) (ceiling_segments c) (floor_segments c).

Definition set_right_segments (c : t) (l : list NodePath) : t :=
  mk (segment_length c) (corridor_width c) (wall_height c)
    (num_segments c) (left_wall_texture c) (right_wall_texture c)
    (ceiling_texture c) (floor_texture c)
    (left_segments c) l (ceiling_segments c) (floor_segments c).

Definition set_ceiling_segments (c : t) (l : list NodePath) : t :=
  mk (segment_length c) (corridor_width c) (wall_height c)
    (num_segments c) (left_wall_texture c) (right_wall_texture c)
    (ceiling_texture c) (floor_texture c)
    (left_segments c) (right_segments c) l (floor_segments c).

Definition set_floor_segments (c : t) (l : list NodePath) : t :=
  mk (segment_length c) (corridor_width c) (wall_height c)
    (num_segments c) (left_wall_texture c) (right_wall_texture c)
    (ceiling_texture c) (floor_texture c)
    (left_segments c) (right_segments c) (ceiling_segments c) l.

(** [Corridor.apply_texture] *)
Definition apply_texture (node : NodePath) (texture_path : string) : NodePath :=
  setTexture node texture_path.

(** One iteration of the [for] loop of [Corridor.build_segments]. *)
Definition build_segment (self : t) (i : Z) : t :=
  let segment_start : Q := (inject_Z i * segment_length self)%Q in
  (* Left wall *)
  let cm_left := setFrame (newCardMaker "left_wall")
                   0 (segment_length self) 0 (wall_height self) in
  let left_node := attachNewNode cm_left in
  let left_node := setPos left_node (- corridor_width self / 2)%Q segment_start 0 in
  let left_node := setHpr left_node 90 0 0 in
  let left_node := apply_texture left_node (left_wall_texture self) in
  let self := set_left_segments self (append (left_segments self) left_node) in
  (* Right wall *)
  let cm_right := setFrame (newCardMaker "right_wall")
                    0 (segment_length self) 0 (wall_height self) in
  let right_node := attachNewNode cm_right in
  let right_node := setPos right_node (corridor_width self / 2)%Q segment_start 0 in
  let right_node := setHpr right_node (-90) 0 0 in
  let right_node := apply_texture right_node (right_wall_texture self) in
  let self := set_right_segments self (append (right_segments self) right_node) in
  (* Ceiling *)
  let cm_ceiling := setFrame (newCardMaker "ceiling")
                      (- corridor_width self / 2)%Q (corridor_width self / 2)%Q
                      0 (segment_length self) in
  let ceiling_node := attachNewNode cm_ceiling in
  let ceiling_node := setPos ceiling_node 0 segment_start (wall_height self) in
  let ceiling_node := setHpr ceiling_node 0 90 0 in
  let ceiling_node := apply_texture ceiling_node (ceiling_texture self) in
  let self := set_ceiling_segments self (append (ceiling_segments self) ceiling_node) in
  (* Floor *)
  let cm_floor := setFrame (newCardMaker "floor")
                    (- corridor_width self / 2)%Q (corridor_width self / 2)%Q
                    0 (segment_length self) in
  let floor_node := attachNewNode cm_floor in
  let floor_node := setPos floor_node 0 segment_start 0 in
  let floor_node := setHpr floor_node 0 (-90) 0 in
  let floor_node := apply_texture floor_node (floor_texture self) in
  set_floor_segments self (append (floor_segments self) floor_node).

(** [Corridor.build_segments]: [for i in range(self.num_segments)]. *)
Definition build_segments (self : t) : t :=
  fold_left build_segment (range (num_segments self)) self.

(** [Corridor.__init__] *)
Definition init (config : Config) : t :=
  build_segments
    {| segment_length := cfg_segment_length config;
       corridor_width := cfg_corridor_width config;
       wall_height := cfg_wall_height config;
       num_segments := cfg_num_segments config;
       left_wall_texture := cfg_left_wall_texture config;
       right_wall_texture := cfg_right_wall_texture config;
       ceiling_texture := cfg_ceiling_texture config;
       floor_texture := cfg_floor_texture config;
       left_segments := [];
       right_segments := [];
       ceiling_segments := [];
       floor_segments := [] |}.

(** [Corridor.recycle_segment].  [self.left_segments[-1]] and each
    [pop(0)] raise [IndexError] on an empty list. *)
Definition recycle_segment (self : t) : option t :=
  last_left ← last (left_segments self);
  let new_y : Q := (getY last_left + segment_length self)%Q in
  '(left_seg, rest) ← pop0 (left_segments self);
  let self := set_left_segments self (append rest (setY left_seg new_y)) in
  '(right_seg, rest) ← pop0 (right_segments self);
  let self := set_right_segments self (append rest (setY right_seg new_y)) in
  '(ceiling_seg, rest) ← pop0 (ceiling_segments self);
  let self := set_ceiling_segments self (append rest (setY ceiling_seg new_y)) in
  '(floor_seg, rest) ← pop0 (floor_segments self);
  let self := set_floor_segments self (append rest (setY floor_seg new_y)) in
  Some self.

End Corridor.

(** ** The CSV sink *)

Inductive csv_cell :=
| CellStr (s : string)
| CellNum (q : Q).

(** One line of the CSV file. *)
Abbreviation csv_row := (list csv_cell).

(** Regular files by path: the rows that have reached the disk. *)
Abbreviation FileSystem := (gmap string (list csv_row)).

Module File.

(** A text file opened for writing: rows written but not yet flushed wait
    in [buffer]. *)
Record t := mk {
  path : string;
  buffer : list csv_row;
  closed : bool
}.

(** [os.path.isfile] *)
Definition isfile (fs : FileSystem) (p : string) : bool :=
  match fs !! p with
  | Some _ => true
  | None => false
  end.

(** [open(p, 'a', newline='')]: creates the file when it is missing. *)
Definition open_append (fs : FileSystem) (p : string) : FileSystem * t :=
  let fs' := match fs !! p with
             | Some _ => fs
             | None => <[p := []]> fs
             end in
  (fs', {| path := p; buffer := []; closed := false |}).

(** [f.write]: [ValueError] on a closed file. *)
Definition write (f : t) (row : csv_row) : option t :=
  if closed f then None
  else Some {| path := path f; buffer := append (buffer f) row; closed := false |}.

(** [f.flush()]: the buffered rows go to the end of the file. *)
Definition flush (fs : FileSystem) (f : t) : option (FileSystem * t) :=
  if closed f then None
  else Some (<[path f := (default [] (fs !! path f) ++ buffer f)%list]> fs,
             {| path := path f; buffer := []; closed := false |}).

(** [f.close()]: flushes; closing twice is allowed. *)
Definition close (fs : FileSystem) (f : t) : FileSystem * t :=
  if closed f then (fs, f)
  else (<[path f := (default [] (fs !! path f) ++ buffer f)%list]> fs,
        {| path := path f; buffer := []; closed := true |}).

End File.

Module DictWriter.

(** [csv.DictWriter.writeheader] *)
Definition writeheader (fieldnames : list string) (f : File.t) : option File.t :=
  File.write f (map CellStr fieldnames).

(** [csv.DictWriter.writerow]: the values of [rowdict] in the order of
    [fieldnames], the empty string for a missing key. *)
Definition writerow (fieldnames : list string) (f : File.t)
    (rowdict : gmap string Q) : option File.t :=
  File.write f (map (fun k => match rowdict !! k with
                              | Some q => CellNum q
                              | None => CellStr EmptyString
                              end) fieldnames).

End DictWriter.

Module DataLogger.

(** [self.writer] writes to [self.file]: one file object, kept once. *)
Record t := mk {
  filename : string;
  fieldnames : list string;
  file : File.t
}.

(** [DataLogger.__init__] *)
Definition init (fs : FileSystem) (filename : string) : option (FileSystem * t) :=
  let fieldnames := ["timestamp"; "position"; "velocity"] in
  let file_exists := File.isfile fs filename in
  let '(fs, file) := File.open_append fs filename in
  file ← (if negb file_exists then DictWriter.writeheader fieldnames file
          else Some file);
  Some (fs, {| filename := filename; fieldnames := fieldnames; file := file |}).

(** [DataLogger.log] *)
Definition log (fs : FileSystem) (self : t) (timestamp position velocity : Q)
    : option (FileSystem * t) :=
  file ← DictWriter.writerow (fieldnames self) (file self)
            (<["timestamp" := timestamp]>
               (<["position" := position]>
                  (<["velocity" := velocity]> ∅)));
  '(fs, file) ← File.flush fs file;
  Some (fs, {| filename := filename self; fieldnames := fieldnames self;
               file := file |}).

(** [DataLogger.close] *)
Definition close (fs : FileSystem) (self : t) : FileSystem * t :=
  let '(fs, file) := File.close fs (file self) in
  (fs, {| filename := filename self; fieldnames := fieldnames self;
          file := file |}).

End DataLogger.

(** ** The application *)

(** The keyboard events bound with [self.accept]. *)
Inductive key_event := arrow_up | arrow_up_up | arrow_down | arrow_down_up.

(** What the runtime delivers: a key event, or one call of the update task
    with the frame time [dt] of [globalClock] and the clock [time.time()]. *)
Inductive input :=
| Key (e : key_event)
| Frame (dt : Q) (now : Q).

Module MousePortal.

Record t := mk {
  cfg : Config;
  player_position : Q;
  player_velocity : Q;
  speed_scaling : Q;
  camera_height : Q;
  camera_pos : Q * Q * Q;
  key_map : gmap string bool;
  corridor : Corridor.t;
  segment_length : Q;
  distance_since_recycle : Q;
  movement_speed : Q;
  data_logger : DataLogger.t
}.

Definition set_player_position (s : t) (v : Q) : t :=
  mk (cfg s) v (player_velocity s) (speed_scaling s) (camera_height s)
    (camera_pos s) (key_map s) (corridor s) (segment_length s)
    (distance_since_recycle s) (movement_speed s) (data_logger s).

Definition set_player_velocity (s : t) (v : Q) : t :=
  mk (cfg s) (player_position s) v (speed_scaling s) (camera_height s)
    (camera_pos s) (key_map s) (corridor s) (segment_length s)
    (distance_since_recycle s) (movement_speed s) (data_logger s).

Definition set_camera_pos (s : t) (v : Q * Q * Q) : t :=
  mk (cfg s) (player_position s) (player_velocity s) (speed_scaling s)
    (camera_height s) v (key_map s) (corridor s) (segment_length s)
    (distance_since_recycle s) (movement_speed s) (data_logger s).

Definition set_key_map (s : t) (v : gmap string bool) : t :=
  mk (cfg s) (player_position s) (player_velocity s) (speed_scaling s)
    (camera_height s) (camera_pos s) v (corridor s) (segment_length s)
    (distance_since_recycle s) (movement_speed s) (data_logger s).

Definition set_corridor (s : t) (v : Corridor.t) : t :=
  mk (cfg s) (player_position s) (player_velocity s) (speed_scaling s)
    (camera_height s) (camera_pos s) (key_map s) v (segment_length s)
    (distance_since_recycle s) (movement_speed s) (data_logger s).

Definition set_distance_since_recycle (s : t) (v : Q) : t :=
  mk (cfg s) (player_position s) (player_velocity s) (speed_scaling s)
    (camera_height s) (camera_pos s) (key_map s) (corridor s)
    (segment_length s) v (movement_speed s) (data_logger s).

Definition set_data_logger (s : t) (v : DataLogger.t) : t :=
  mk (cfg s) (player_position s) (player_velocity s) (speed_scaling s)
    (camera_height s) (camera_pos s) (key_map s) (corridor s)
    (segment_length s) (distance_since_recycle s) (movement_speed s) v.

(** [MousePortal.__init__], from the parsed configuration.  The window,
    the task manager and the key bindings belong to the runtime. *)
Definition init (fs : FileSystem) (config : Config) : option (FileSystem * t) :=
  let player_position : Q := 0%Q in
  let camera_height : Q := default 2%Q (cfg_camera_height config) in
  '(fs, logger) ← DataLogger.init fs (cfg_data_logging_file config);
  Some (fs,
        {| cfg := config;
           player_position := player_position;
           player_velocity := 0;
           speed_scaling := default 5%Q (cfg_speed_scaling config);
           camera_height := camera_height;
           camera_pos := (0%Q, player_position, camera_height);
           key_map := <["forward" := false]> (<["backward" := false]> ∅);
           corridor := Corridor.init config;
           segment_length := cfg_segment_length config;
           distance_since_recycle := 0;
           movement_speed := 10;
           data_logger := logger |}).

(** [MousePortal.set_key] *)
Definition set_key (self : t) (key : string) (value : bool) : t :=
  set_key_map self (<[key := value]> (key_map self)).

(** The bindings made with [self.accept] in [__init__]. *)
Definition accept (self : t) (e : key_event) : t :=
  match e with
  | arrow_up => set_key self "forward" true
  | arrow_up_up => set_key self "forward" false
  | arrow_down => set_key self "backward" true
  | arrow_down_up => set_key self "backward" false
  end.

(** The [while] loop of [update]; the second component counts the calls
    of [recycle_segment]. *)
Fixpoint recycle_loop (fuel : nat) (self : t) : option (t * nat) :=
  if Qle_bool (segment_length self) (distance_since_recycle self) then
    match fuel with
    | O => None
    | S fuel =>
        c ← Corridor.recycle_segment (corridor self);
        let self := set_corridor self c in
        let self := set_distance_since_recycle self
                      (distance_since_recycle self - segment_length self)%Q in
        '(self, n) ← recycle_loop fuel self;
        Some (self, S n)
    end
  else Some (self, O).

(** First block of [update]: the velocity from the key state.  A key
    missing from [key_map] is a [KeyError]; ["backward"] is read only
    when ["forward"] is off. *)
Definition update_velocity (self : t) : option t :=
  forward ← key_map self !! "forward";
  if forward : bool then
    Some (set_player_velocity self (speed_scaling self))
  else
    backward ← key_map self !! "backward";
    if backward : bool then
      Some (set_player_velocity self (- speed_scaling self)%Q)
    else
      Some (set_player_velocity self 0%Q).

(** The block [if move_distance > 0: ...] of [update]. *)
Definition recycle_trigger (fuel : nat) (self : t) (move_distance : Q)
    : option (t * nat) :=
  if Qlt_bool 0 move_distance then
    let self := set_distance_since_recycle self
                  (distance_since_recycle self + move_distance)%Q in
    recycle_loop fuel self
  else Some (self, O).

(** [MousePortal.update]: one frame.  Returns the new file system, the
    new state and the number of recycle events of the frame. *)
Definition update (fuel : nat) (fs : FileSystem) (self : t) (dt now : Q)
    : option (FileSystem * t * nat) :=
  (* Update player velocity based on key input *)
  self ← update_velocity self;
  (* Update player position (movement along the Y axis) *)
  let self := set_player_position self
                (player_position self + player_velocity self * dt)%Q in
  let move_distance : Q := (player_velocity self * dt)%Q in
  let self := set_camera_pos self
                (0%Q, player_position self, camera_height self) in
  (* Only recycle when moving forward *)
  '(self, n) ← recycle_trigger fuel self move_distance;
  (* Log movement data (timestamp, position, velocity) *)
  '(fs, logger) ← DataLogger.log fs (data_logger self) now
                     (player_position self) (player_velocity self);
  Some (fs, set_data_logger self logger, n).

(** The task manager and the event queue: inputs in order of arrival;
    the total of recycle events is summed over the frames. *)
Fixpoint run (fuel : nat) (fs : FileSystem) (self : t) (inputs : list input)
    : option (FileSystem * t * nat) :=
  match inputs with
  | [] => Some (fs, self, O)
  | Key e :: inputs => run fuel fs (accept self e) inputs
  | Frame dt now :: inputs =>
      '(fs, self, n) ← update fuel fs self dt now;
      '(fs, self, m) ← run fuel fs self inputs;
      Some (fs, self, (n + m)%nat)
  end.

End MousePortal.

(** ** Vocabulary of the properties *)

Inductive Face := LeftWall | RightWall | Ceiling | Floor.

Definition face_segments (f : Face) (c : Corridor.t) : list NodePath :=
  match f with
  | LeftWall => Corridor.left_segments c
  | RightWall => Corridor.right_segments c
  | Ceiling => Corridor.ceiling_segments c
  | Floor => Corridor.floor_segments c
  end.

(** The travel-axis positions of a face, in list order. *)
Definition positions (f : Face) (c : Corridor.t) : list Q :=
  map getY (face_segments f c).

(** [k] calls of [recycle_segment] in a row. *)
Fixpoint recycle_n (k : nat) (c : Corridor.t) : option Corridor.t :=
  match k with
  | O => Some c
  | S k => c' ← Corridor.recycle_segment c; recycle_n k c'
  end.

(** The window [m*len, (m+1)*len, ..., (m+n-1)*len]. *)
Fixpoint window (m : Z) (n : nat) (len : Q) : list Q :=
  match n with
  | O => []
  | S n => (inject_Z m * len)%Q :: window (m + 1) n len
  end.

(** Ascending sort of a list of rationals (insertion sort). *)
Fixpoint insert_asc (x : Q) (l : list Q) : list Q :=
  match l with
  | [] => [x]
  | y :: l' => if Qle_bool x y then x :: l else y :: insert_asc x l'
  end.

Definition sort_asc (l : list Q) : list Q := fold_right insert_asc [] l.

(** One recycle operation on the sequence of a single face: the three
    statements [pop(0)], [setY(new_y)], [append] that [recycle_segment]
    repeats for each face. *)
Definition recycle_face (new_y : Q) (segs : list NodePath) : option (list NodePath) :=
  '(seg, rest) ← pop0 segs;
  Some (append rest (setY seg new_y)).

(** The recycle operations of [new_ys] applied to one face, in order. *)
Fixpoint recycle_face_all (new_ys : list Q) (segs : list NodePath)
    : option (list NodePath) :=
  match new_ys with
  | [] => Some segs
  | y :: new_ys => segs' ← recycle_face y segs; recycle_face_all new_ys segs'
  end.

(** A rational remainder: [x] minus the whole multiples of [y] below it. *)
Definition Qmod (x y : Q) : Q := (x - inject_Z (Qfloor (x / y)) * y)%Q.

(** Every face holds at least one panel. *)
Definition faces_nonempty (c : Corridor.t) : Prop :=
  forall f, face_segments f c <> [].

(** The lines of the CSV file. *)
Definition header_row : csv_row :=
  [CellStr "timestamp"; CellStr "position"; CellStr "velocity"].

Definition data_row (r : Q * Q * Q) : csv_row :=
  let '(timestamp, position, velocity) := r in
  [CellNum timestamp; CellNum position; CellNum velocity].

(** Writing a list of records, one [log] call each. *)
Fixpoint log_all (fs : FileSystem) (lg : DataLogger.t) (rs : list (Q * Q * Q))
    : option (FileSystem * DataLogger.t) :=
  match rs with
  | [] => Some (fs, lg)
  | (timestamp, position, velocity) :: rs =>
      '(fs, lg) ← DataLogger.log fs lg timestamp position velocity;
      log_all fs lg rs
  end.


(** The ring invariant: the four faces carry the same positions, and
    these are pointwise the window of [S n] panels at offset [m]. *)
Definition ring_inv (m : Z) (n : nat) (c : Corridor.t) : Prop :=
  (forall f, positions f c = positions LeftWall c) /\
  Forall2 Qeq (positions LeftWall c) (window m (S n) (Corridor.segment_length c)).

(** A state in which a frame cannot raise: both keys are in [key_map],
    the log file is open, the segment length is positive, no face is
    empty and the accumulator is not negative. *)
Definition ready (s : MousePortal.t) : Prop :=
  is_Some (MousePortal.key_map s !! "forward") /\
  is_Some (MousePortal.key_map s !! "backward") /\
  File.closed (DataLogger.file (MousePortal.data_logger s)) = false /\
  (0 < MousePortal.segment_length s)%Q /\
  faces_nonempty (MousePortal.corridor s) /\
  (0 <= MousePortal.distance_since_recycle s)%Q.

(** The number of calls of the update task among the inputs. *)
Fixpoint count_frames (inputs : list input) : nat :=
  match inputs with
  | [] => O
  | Key _ :: inputs => count_frames inputs
  | Frame _ _ :: inputs => S (count_frames inputs)
  end.




(** ** Finite precision *)

(** The two roundings of the platform: [double] for the result of every
    Python float operation, [single] for every coordinate that a Panda3D
    node stores. *)
Record Rounding := mkRounding {
  double : Q -> Q;
  single : Q -> Q
}.

(** [2 ^ e] *)
Definition Qpow2 (e : Z) : Q :=
  match e with
  | Z0 => 1%Q
  | Zpos p => inject_Z (2 ^ Zpos p)
  | Zneg p => (1 # (2 ^ p))%Q
  end.

(** The binary exponent of a rational that is not zero:
    [2 ^ Qlog2 q <= |q| < 2 ^ (Qlog2 q + 1)]. *)
Definition Qlog2 (q : Q) : Z :=
  let e := (Z.log2 (Z.abs (Qnum q)) - Z.log2 (Zpos (Qden q)))%Z in
  if Qle_bool (Qpow2 e) (Qabs q) then e else (e - 1)%Z.

(** The nearest integer, ties to the even one. *)
Definition Qround_even (q : Q) : Z :=
  let f := Qfloor q in
  match (q - inject_Z f ?= 1 # 2)%Q with
  | Lt => f
  | Gt => (f + 1)%Z
  | Eq => if Z.even f then f else (f + 1)%Z
  end.

(** Rounding to nearest, ties to even, to the binary format of [prec]
    significant bits whose smallest positive number is [2 ^ emin].
    Finite results only: the exponent is not bounded above. *)
Definition round_binary (prec emin : Z) (q : Q) : Q :=
  let q := Qred q in
  if Qeq_bool q 0 then 0%Q
  else
    let ex := Z.max (Qlog2 q - prec + 1) emin in
    Qred (inject_Z (Qround_even (q / Qpow2 ex)) * Qpow2 ex).

(** IEEE 754 binary64 (Python [float]) and binary32 (Panda3D coordinates). *)
Definition binary64 : Q -> Q := round_binary 53 (-1074).
Definition binary32 : Q -> Q := round_binary 24 (-149).

Definition ieee : Rounding := {| double := binary64; single := binary32 |}.

(** No rounding at all. *)
Definition exact : Rounding := {| double := fun q => q; single := fun q => q |}.

(** The format [r] holds the number [y] exactly, however it is written. *)
Definition held_by (r : Q -> Q) (y : Q) : Prop :=
  forall x, (x == y)%Q -> (r x == x)%Q.

(** The script with its roundings written out.  The records are those of
    the modules above; every arithmetic result goes through [double] and
    every coordinate given to a node through [single]. *)
Module Rounded.

(** [CardMaker.setFrame] *)
Definition setFrame (R : Rounding) (cm : CardMaker) (l r b t : Q) : CardMaker :=
  Panda.setFrame cm (single R l) (single R r) (single R b) (single R t).

(** [NodePath.setPos], [setHpr], [setY] *)
Definition setPos (R : Rounding) (n : NodePath) (x y z : Q) : NodePath :=
  Panda.setPos n (single R x) (single R y) (single R z).

Definition setHpr (R : Rounding) (n : NodePath) (h p r : Q) : NodePath :=
  Panda.setHpr n (single R h) (single R p) (single R r).

Definition setY (R : Rounding) (n : NodePath) (y : Q) : NodePath :=
  Panda.setY n (single R y).

(** One iteration of the [for] loop of [Corridor.build_segments]. *)
Definition build_segment (R : Rounding) (self : Corridor.t) (i : Z) : Corridor.t :=
  let segment_length := Corridor.segment_length self in
  let corridor_width := Corridor.corridor_width self in
  let wall_height := Corridor.wall_height self in
  let segment_start : Q := double R (inject_Z i * segment_length)%Q in
  (* Left wall *)
  let cm_left := setFrame R (newCardMaker "left_wall")
                   0 segment_length 0 wall_height in
  let left_node := attachNewNode cm_left in
  let left_node := setPos R left_node (double R (- corridor_width / 2)%Q)
                     segment_start 0 in
  let left_node := setHpr R left_node 90 0 0 in
  let left_node := Corridor.apply_texture left_node (Corridor.left_wall_texture self) in
  let self := Corridor.set_left_segments self
                (append (Corridor.left_segments self) left_node) in
  (* Right wall *)
  let cm_right := setFrame R (newCardMaker "right_wall")
                    0 segment_length 0 wall_height in
  let right_node := attachNewNode cm_right in
  let right_node := setPos R right_node (double R (corridor_width / 2)%Q)
                      segment_start 0 in
  let right_node := setHpr R right_node (-90) 0 0 in
  let right_node := Corridor.apply_texture right_node (Corridor.right_wall_texture self) in
  let self := Corridor.set_right_segments self
                (append (Corridor.right_segments self) right_node) in
  (* Ceiling *)
  let cm_ceiling := setFrame R (newCardMaker "ceiling")
                      (double R (- corridor_width / 2)%Q)
                      (double R (corridor_width / 2)%Q) 0 segment_length in
  let ceiling_node := attachNewNode cm_ceiling in
  let ceiling_node := setPos R ceiling_node 0 segment_start wall_height in
  let ceiling_node := setHpr R ceiling_node 0 90 0 in
  let ceiling_node := Corridor.apply_texture ceiling_node (Corridor.ceiling_texture self) in
  let self := Corridor.set_ceiling_segments self
                (append (Corridor.ceiling_segments self) ceiling_node) in
  (* Floor *)
  let cm_floor := setFrame R (newCardMaker "floor")
                    (double R (- corridor_width / 2)%Q)
                    (double R (corridor_width / 2)%Q) 0 segment_length in
  let floor_node := attachNewNode cm_floor in
  let floor_node := setPos R floor_node 0 segment_start 0 in
  let floor_node := setHpr R floor_node 0 (-90) 0 in
  let floor_node := Corridor.apply_texture floor_node (Corridor.floor_texture self) in
  Corridor.set_floor_segments self (append (Corridor.floor_segments self) floor_node).

(** [Corridor.build_segments] *)
Definition build_segments (R : Rounding) (self : Corridor.t) : Corridor.t :=
  fold_left (build_segment R) (range (Corridor.num_segments self)) self.

(** [Corridor.__init__] *)
Definition Corridor_init (R : Rounding) (config : Config) : Corridor.t :=
  build_segments R
    {| Corridor.segment_length := cfg_segment_length config;
       Corridor.corridor_width := cfg_corridor_width config;
       Corridor.wall_height := cfg_wall_height config;
       Corridor.num_segments := cfg_num_segments config;
       Corridor.left_wall_texture := cfg_left_wall_texture config;
       Corridor.right_wall_texture := cfg_right_wall_texture config;
       Corridor.ceiling_texture := cfg_ceiling_texture config;
       Corridor.floor_texture := cfg_floor_texture config;
       Corridor.left_segments := [];
       Corridor.right_segments := [];
       Corridor.ceiling_segments := [];
       Corridor.floor_segments := [] |}.

(** [Corridor.recycle_segment]: [getY] returns the stored single as a
    float, the sum is a float, and each [setY] stores its single. *)
Definition recycle_segment (R : Rounding) (self : Corridor.t) : option Corridor.t :=
  last_left ← last (Corridor.left_segments self);
  let new_y : Q := double R (getY last_left + Corridor.segment_length self)%Q in
  '(left_seg, rest) ← pop0 (Corridor.left_segments self);
  let self := Corridor.set_left_segments self (append rest (setY R left_seg new_y)) in
  '(right_seg, rest) ← pop0 (Corridor.right_segments self);
  let self := Corridor.set_right_segments self (append rest (setY R right_seg new_y)) in
  '(ceiling_seg, rest) ← pop0 (Corridor.ceiling_segments self);
  let self := Corridor.set_ceiling_segments self (append rest (setY R ceiling_seg new_y)) in
  '(floor_seg, rest) ← pop0 (Corridor.floor_segments self);
  let self := Corridor.set_floor_segments self (append rest (setY R floor_seg new_y)) in
  Some self.

(** [MousePortal.__init__] *)
Definition MousePortal_init (R : Rounding) (fs : FileSystem) (config : Config)
    : option (FileSystem * MousePortal.t) :=
  let player_position : Q := 0%Q in
  let camera_height : Q := default 2%Q (cfg_camera_height config) in
  '(fs, logger) ← DataLogger.init fs (cfg_data_logging_file config);
  Some (fs,
        {| MousePortal.cfg := config;
           MousePortal.player_position := player_position;
           MousePortal.player_velocity := 0;
           MousePortal.speed_scaling := default 5%Q (cfg_speed_scaling config);
           MousePortal.camera_height := camera_height;
           MousePortal.camera_pos :=
             (single R 0, single R player_position, single R camera_height);
           MousePortal.key_map := <["forward" := false]> (<["backward" := false]> ∅);
           MousePortal.corridor := Corridor_init R config;
           MousePortal.segment_length := cfg_segment_length config;
           MousePortal.distance_since_recycle := 0;
           MousePortal.movement_speed := 10;
           MousePortal.data_logger := logger |}).

(** The [while] loop of [update]. *)
Fixpoint recycle_loop (R : Rounding) (fuel : nat) (self : MousePortal.t)
    : option (MousePortal.t * nat) :=
  if Qle_bool (MousePortal.segment_length self)
       (MousePortal.distance_since_recycle self) then
    match fuel with
    | O => None
    | S fuel =>
        c ← recycle_segment R (MousePortal.corridor self);
        let self := MousePortal.set_corridor self c in
        let self := MousePortal.set_distance_since_recycle self
                      (double R (MousePortal.distance_since_recycle self
                                 - MousePortal.segment_length self)%Q) in
        '(self, n) ← recycle_loop R fuel self;
        Some (self, S n)
    end
  else Some (self, O).

(** The block [if move_distance > 0: ...] of [update]. *)
Definition recycle_trigger (R : Rounding) (fuel : nat) (self : MousePortal.t)
    (move_distance : Q) : option (MousePortal.t * nat) :=
  if Qlt_bool 0 move_distance then
    let self := MousePortal.set_distance_since_recycle self
                  (double R (MousePortal.distance_since_recycle self
                             + move_distance)%Q) in
    recycle_loop R fuel self
  else Some (self, O).

(** [MousePortal.update].  The velocity is a copy or a negation of
    [speed_scaling], which does not round. *)
Definition update (R : Rounding) (fuel : nat) (fs : FileSystem)
    (self : MousePortal.t) (dt now : Q)
    : option (FileSystem * MousePortal.t * nat) :=
  self ← MousePortal.update_velocity self;
  let self := MousePortal.set_player_position self
                (double R (MousePortal.player_position self
                           + double R (MousePortal.player_velocity self * dt))%Q) in
  let move_distance : Q := double R (MousePortal.player_velocity self * dt)%Q in
  let self := MousePortal.set_camera_pos self
                (single R 0, single R (MousePortal.player_position self),
                 single R (MousePortal.camera_height self)) in
  '(self, n) ← recycle_trigger R fuel self move_distance;
  '(fs, logger) ← DataLogger.log fs (MousePortal.data_logger self) now
                     (MousePortal.player_position self)
                     (MousePortal.player_velocity self);
  Some (fs, MousePortal.set_data_logger self logger, n).

(** The task manager and the event queue. *)
Fixpoint run (R : Rounding) (fuel : nat) (fs : FileSystem) (self : MousePortal.t)
    (inputs : list input) : option (FileSystem * MousePortal.t * nat) :=
  match inputs with
  | [] => Some (fs, self, O)
  | Key e :: inputs => run R fuel fs (MousePortal.accept self e) inputs
  | Frame dt now :: inputs =>
      '(fs, self, n) ← update R fuel fs self dt now;
      '(fs, self, m) ← run R fuel fs self inputs;
      Some (fs, self, (n + m)%nat)
  end.

(** [k] calls of [recycle_segment] in a row. *)
Fixpoint recycle_n (R : Rounding) (k : nat) (c : Corridor.t) : option Corridor.t :=
  match k with
  | O => Some c
  | S k => c' ← recycle_segment R c; recycle_n R k c'
  end.

End Rounded.

(** Configurations on which rounding shows: a segment length of
    [2^24 + 1], which single precision cannot hold, and a segment length
    of one tenth with a speed of seven tenths, as floats. *)
Definition wide_cfg : Config :=
  mkConfig 16777217 6 3 3 "left.png" "right.png" "ceiling.png" "floor.png"
    800 600 (Some 1%Q) None "log.csv".

Definition tenth_cfg : Config :=
  mkConfig (binary64 (1 # 10)) 6 3 5 "left.png" "right.png" "ceiling.png" "floor.png"
    800 600 (Some (binary64 (7 # 10))) None "log.csv".

(** ** Sample configurations and states *)

(** A corridor of five segments of length 10, and one of two. *)
Definition demo_cfg : Config :=
  mkConfig 10 6 3 5 "left.png" "right.png" "ceiling.png" "floor.png"
    800 600 (Some 1%Q) None "log.csv".


(** The state of the demonstration corridor once the forward key is down. *)
Definition demo_state : MousePortal.t :=
  {| MousePortal.cfg := demo_cfg;
     MousePortal.player_position := 0;
     MousePortal.player_velocity := 0;
     MousePortal.speed_scaling := 1;
     MousePortal.camera_height := 2;
     MousePortal.camera_pos := (0, 0, 2)%Q;
     MousePortal.key_map := <["forward" := true]> (<["backward" := false]> ∅);
     MousePortal.corridor := Corridor.init demo_cfg;
     MousePortal.segment_length := 10;
     MousePortal.distance_since_recycle := 0;
     MousePortal.movement_speed := 10;
     MousePortal.data_logger :=
       DataLogger.mk "log.csv" ["timestamp"; "position"; "velocity"]
         (File.mk "log.csv" [header_row] false) |}.

(** ** Facts about rationals and lists *)

Lemma Qlt_bool_iff (x y : Q) : Qlt_bool x y = true <-> (x < y)%Q.
Proof.
  unfold Qlt_bool. rewrite Qlt_alt.
  destruct (x ?= y)%Q; split; intros H; try reflexivity; discriminate H.
Qed.

Lemma Qlt_bool_false (x y : Q) : Qlt_bool x y = false <-> (y <= x)%Q.
Proof.
  rewrite <- not_true_iff_false, Qlt_bool_iff. split.
  - apply Qnot_lt_le.
  - apply Qle_not_lt.
Qed.

Lemma Qle_bool_false (x y : Q) : Qle_bool x y = false <-> (y < x)%Q.
Proof.
  rewrite <- not_true_iff_false, Qle_bool_iff. split.
  - apply Qnot_le_lt.
  - apply Qlt_not_le.
Qed.

Lemma window_length m n len : length (window m n len) = n.
Proof. revert m. induction n as [|n IH]; intros m; simpl; [done | by rewrite IH]. Qed.

Lemma window_snoc m n len :
  window m (S n) len = (window m n len ++ [inject_Z (m + Z.of_nat n) * len]%Q)%list.
Proof.
  revert m. induction n as [|n IH]; intros m.
  - simpl. by rewrite Z.add_0_r.
  - change (window m (S (S n)) len)
      with ((inject_Z m * len)%Q :: window (m + 1) (S n) len).
    rewrite IH. cbn [window app].
    replace (m + 1 + Z.of_nat n)%Z with (m + Z.of_nat (S n))%Z by lia.
    reflexivity.
Qed.

Lemma window_range n len :
  map (fun i => (inject_Z i * len)%Q) (range n) = window 0 (Z.to_nat n) len.
Proof.
  unfold range. generalize (Z.to_nat n) as k. intros k.
  induction k as [|k IH].
  - reflexivity.
  - rewrite window_snoc, seq_S, !map_app, IH. reflexivity.
Qed.

Lemma Forall2_Qeq_last (l l' : list Q) (y : Q) :
  Forall2 Qeq l l' -> last l = Some y ->
  exists y', last l' = Some y' /\ (y == y')%Q.
Proof.
  intros H. induction H as [|a b l l' Hab H IH]; intros Hl; [done|].
  destruct H as [|a' b' l l' Hab' H].
  - simpl in Hl. inversion Hl; subst. exists b. done.
  - apply IH. exact Hl.
Qed.

(** Dropping the head of a window and appending the successor of its last
    element gives the next window. *)
Lemma window_shift (ys : list Q) (yl : Q) m n len :
  Forall2 Qeq ys (window m (S n) len) ->
  last ys = Some yl ->
  Forall2 Qeq (tail ys ++ [yl + len]%Q) (window (m + 1) (S n) len).
Proof.
  intros H Hl.
  destruct (Forall2_Qeq_last _ _ _ H Hl) as (y' & Hl' & Hy).
  rewrite window_snoc, last_snoc in Hl'. inversion Hl'; subst y'.
  simpl in H. inversion H as [|y0 w0 t wt Hy0 Ht]; subst. cbn [tail].
  rewrite window_snoc. apply Forall2_app; [exact Ht|].
  constructor; [|constructor].
  rewrite Hy, !inject_Z_plus. ring.
Qed.

Lemma insert_asc_head (x : Q) (l : list Q) m n len :
  (0 < len)%Q -> (x == inject_Z m * len)%Q ->
  Forall2 Qeq l (window (m + 1) n len) ->
  insert_asc x l = x :: l.
Proof.
  intros Hlen Hx H. destruct n as [|n]; simpl in H.
  - inversion H. reflexivity.
  - inversion H as [|y w t wt Hy Ht]; subst. simpl.
    assert (Hle : Qle_bool x y = true).
    { apply Qle_bool_iff. rewrite Hx, Hy, inject_Z_plus.
      change (inject_Z 1) with 1%Q. lra. }
    by rewrite Hle.
Qed.

(** A list that is pointwise a window of positive step is already sorted. *)
Lemma sort_asc_window (ys : list Q) m n len :
  (0 < len)%Q -> Forall2 Qeq ys (window m n len) -> sort_asc ys = ys.
Proof.
  intros Hlen. revert m ys. induction n as [|n IH]; intros m ys H.
  - inversion H. reflexivity.
  - simpl in H. inversion H as [|y w t wt Hy Ht]; subst. simpl.
    rewrite (IH _ _ Ht). eapply insert_asc_head; eauto.
Qed.

Lemma insert_asc_Qeq (x x' : Q) (l l' : list Q) :
  (x == x')%Q -> Forall2 Qeq l l' ->
  Forall2 Qeq (insert_asc x l) (insert_asc x' l').
Proof.
  intros Hx H. induction H as [|y y' l l' Hy H IH]; simpl.
  - by repeat constructor.
  - rewrite (Qleb_comp x x' Hx y y' Hy).
    destruct (Qle_bool x' y'); repeat constructor; done.
Qed.

(** Sorting respects pointwise equality of rationals. *)
Lemma sort_asc_Qeq (l l' : list Q) :
  Forall2 Qeq l l' -> Forall2 Qeq (sort_asc l) (sort_asc l').
Proof.
  intros H. induction H as [|y y' l l' Hy H IH]; simpl; [constructor|].
  by apply insert_asc_Qeq.
Qed.

(** ** Facts about the corridor *)

Section CorridorFacts.

Lemma build_segment_positions c i f :
  positions f (Corridor.build_segment c i)
  = (positions f c ++ [inject_Z i * Corridor.segment_length c]%Q)%list.
Proof.
  destruct f; unfold positions, Corridor.build_segment, append; simpl;
    rewrite map_app; reflexivity.
Qed.

Lemma build_segment_segment_length c i :
  Corridor.segment_length (Corridor.build_segment c i) = Corridor.segment_length c.
Proof. reflexivity. Qed.

Lemma build_fold_segment_length l c :
  Corridor.segment_length (fold_left Corridor.build_segment l c)
  = Corridor.segment_length c.
Proof.
  revert c. induction l as [|i l IH]; intros c; simpl; [done|].
  rewrite IH. apply build_segment_segment_length.
Qed.

Lemma build_fold_positions l c f :
  positions f (fold_left Corridor.build_segment l c)
  = (positions f c
     ++ map (fun i => (inject_Z i * Corridor.segment_length c)%Q) l)%list.
Proof.
  revert c. induction l as [|i l IH]; intros c; simpl.
  - by rewrite app_nil_r.
  - rewrite IH, build_segment_positions, build_segment_segment_length.
    by rewrite <- app_assoc.
Qed.

Lemma init_segment_length cfg :
  Corridor.segment_length (Corridor.init cfg) = cfg_segment_length cfg.
Proof. unfold Corridor.init, Corridor.build_segments. by rewrite build_fold_segment_length. Qed.

(** After [build_segments], every face holds the window that starts at 0. *)
Lemma init_positions cfg f :
  positions f (Corridor.init cfg)
  = window 0 (Z.to_nat (cfg_num_segments cfg)) (cfg_segment_length cfg).
Proof.
  unfold Corridor.init, Corridor.build_segments.
  rewrite build_fold_positions. simpl.
  replace (positions f _) with (@nil Q) by (by destruct f).
  apply window_range.
Qed.

Lemma recycle_face_positions new_y segs segs' :
  recycle_face new_y segs = Some segs' ->
  map getY segs' = (tail (map getY segs) ++ [new_y])%list.
Proof.
  destruct segs as [|seg rest]; simpl; [done|].
  intros [= <-]. unfold append. by rewrite map_app.
Qed.

Lemma recycle_face_length new_y segs segs' :
  recycle_face new_y segs = Some segs' -> length segs' = length segs.
Proof.
  destruct segs as [|seg rest]; simpl; [done|].
  intros [= <-]. unfold append. rewrite length_app. simpl. lia.
Qed.

(** [recycle_segment] is one [recycle_face] per face, all with the new
    position computed from the last panel of the left wall. *)
Lemma recycle_segment_faces c c' :
  Corridor.recycle_segment c = Some c' ->
  exists last_left,
    last (Corridor.left_segments c) = Some last_left /\
    (forall f, recycle_face (getY last_left + Corridor.segment_length c)%Q
                 (face_segments f c) = Some (face_segments f c')) /\
    Corridor.segment_length c' = Corridor.segment_length c.
Proof.
  unfold Corridor.recycle_segment.
  destruct (last (Corridor.left_segments c)) as [last_left|] eqn:Hlast; [|done].
  simpl.
  destruct (Corridor.left_segments c) as [|l ls] eqn:Hl; [done|].
  destruct (Corridor.right_segments c) as [|r rs] eqn:Hr; [done|].
  destruct (Corridor.ceiling_segments c) as [|t ts] eqn:Ht; [done|].
  destruct (Corridor.floor_segments c) as [|b bs] eqn:Hb; [done|].
  simpl. intros [= <-]. exists last_left. split; [done|]. split; [|done].
  intros []; simpl; by rewrite ?Hl, ?Hr, ?Ht, ?Hb.
Qed.

Lemma recycle_segment_total c :
  (forall f, face_segments f c <> []) -> is_Some (Corridor.recycle_segment c).
Proof.
  intros H. unfold Corridor.recycle_segment.
  pose proof (H LeftWall) as Hl. pose proof (H RightWall) as Hr.
  pose proof (H Ceiling) as Ht. pose proof (H Floor) as Hb. simpl in *.
  apply last_is_Some in Hl as Hlast. destruct Hlast as [last_left ->]. simpl.
  destruct (Corridor.left_segments c); [done|].
  destruct (Corridor.right_segments c); [done|].
  destruct (Corridor.ceiling_segments c); [done|].
  destruct (Corridor.floor_segments c); [done|].
  simpl. eauto.
Qed.

Lemma ring_inv_nonempty m n c f : ring_inv m n c -> face_segments f c <> [].
Proof.
  intros [Hal Hw] Hnil. specialize (Hal f). unfold positions in Hal at 1.
  rewrite Hnil in Hal. simpl in Hal. rewrite <- Hal in Hw. inversion Hw.
Qed.

Lemma ring_inv_step m n c :
  ring_inv m n c ->
  exists c', Corridor.recycle_segment c = Some c' /\ ring_inv (m + 1) n c'.
Proof.
  intros Hinv.
  destruct (recycle_segment_total c) as [c' Hc'].
  { intros f. eapply ring_inv_nonempty; eauto. }
  exists c'. split; [done|].
  destruct (recycle_segment_faces _ _ Hc') as (last_left & Hlast & Hfaces & Hlen).
  destruct Hinv as [Hal Hw].
  assert (Hpos : forall f, positions f c'
            = (tail (positions LeftWall c)
               ++ [getY last_left + Corridor.segment_length c]%Q)%list).
  { intros f. unfold positions at 1.
    rewrite (recycle_face_positions _ _ _ (Hfaces f)).
    fold (positions f c). by rewrite Hal. }
  split.
  - intros f. by rewrite !Hpos.
  - rewrite Hpos, Hlen. apply window_shift; [done|].
    unfold positions. simpl.
    change (map getY (Corridor.left_segments c))
      with (getY <$> Corridor.left_segments c).
    by rewrite fmap_last, Hlast.
Qed.

Lemma ring_inv_recycle_n k m n c :
  ring_inv m n c ->
  exists c', recycle_n k c = Some c' /\ ring_inv (m + Z.of_nat k) n c'
             /\ Corridor.segment_length c' = Corridor.segment_length c.
Proof.
  revert m c. induction k as [|k IH]; intros m c Hinv.
  - exists c. rewrite Z.add_0_r. done.
  - destruct (ring_inv_step _ _ _ Hinv) as (c1 & Hc1 & Hinv1).
    destruct (IH _ _ Hinv1) as (c' & Hc' & Hinv' & Hlen).
    exists c'. simpl. rewrite Hc1. simpl. split; [done|].
    replace (m + Z.of_nat (S k))%Z with (m + 1 + Z.of_nat k)%Z by lia.
    split; [done|]. rewrite Hlen.
    destruct (recycle_segment_faces _ _ Hc1) as (? & ? & ? & ?). done.
Qed.

Lemma ring_inv_init cfg n :
  Z.to_nat (cfg_num_segments cfg) = S n -> ring_inv 0 n (Corridor.init cfg).
Proof.
  intros Hn. split.
  - intros f. by rewrite !init_positions.
  - rewrite init_positions, init_segment_length, Hn.
    apply Forall2_same_length_lookup_2; [done|].
    intros i x y Hx Hy. rewrite Hx in Hy. by inversion Hy.
Qed.

End CorridorFacts.

(** ** Facts about the recycling trigger *)

Section TriggerFacts.

Import MousePortal.

Lemma recycle_segment_nonempty c c' :
  Corridor.recycle_segment c = Some c' -> faces_nonempty c'.
Proof.
  intros H f Hnil.
  destruct (recycle_segment_faces _ _ H) as (last_left & _ & Hfaces & _).
  specialize (Hfaces f). rewrite Hnil in Hfaces.
  destruct (face_segments f c) as [|seg rest]; [done|].
  apply recycle_face_length in Hfaces. simpl in Hfaces. lia.
Qed.

Lemma recycle_n_add n m c :
  recycle_n (n + m) c = (c' ← recycle_n n c; recycle_n m c').
Proof.
  revert c. induction n as [|n IH]; intros c; simpl; [done|].
  destruct (Corridor.recycle_segment c); simpl; [apply IH | done].
Qed.

Lemma Qnat_succ (n : nat) :
  (inject_Z (Z.of_nat (S n)) == inject_Z (Z.of_nat n) + 1)%Q.
Proof. rewrite Nat2Z.inj_succ, <- Z.add_1_r, inject_Z_plus. reflexivity. Qed.

(** The loop runs exactly [n] times when the accumulator lies in
    [[n*len, (n+1)*len)]; the outcome does not depend on spare fuel. *)
Lemma recycle_loop_steps (n : nat) (s : t) :
  (0 < segment_length s)%Q ->
  faces_nonempty (corridor s) ->
  (inject_Z (Z.of_nat n) * segment_length s <= distance_since_recycle s)%Q ->
  (distance_since_recycle s < (inject_Z (Z.of_nat n) + 1) * segment_length s)%Q ->
  exists c' a',
    (forall fuel, (n <= fuel)%nat ->
       recycle_loop fuel s
       = Some (set_distance_since_recycle (set_corridor s c') a', n)) /\
    (a' == distance_since_recycle s - inject_Z (Z.of_nat n) * segment_length s)%Q /\
    recycle_n n (corridor s) = Some c' /\
    faces_nonempty c'.
Proof.
  revert s. induction n as [|n IH]; intros s Hlen Hne Hlo Hhi.
  - exists (corridor s), (distance_since_recycle s). repeat split; try done.
    + intros fuel _.
      assert (Hb : Qle_bool (segment_length s) (distance_since_recycle s) = false).
      { apply Qle_bool_false.
        change (inject_Z (Z.of_nat 0)) with 0%Q in Hhi. lra. }
      destruct s; destruct fuel; simpl in *; by rewrite Hb.
    + change (inject_Z (Z.of_nat 0)) with 0%Q. lra.
  - rewrite Qnat_succ in Hlo, Hhi.
    destruct (recycle_segment_total _ Hne) as [c1 Hc1].
    set (s1 := set_distance_since_recycle (set_corridor s c1)
                 (distance_since_recycle s - segment_length s)%Q).
    destruct (IH s1) as (c' & a' & Hrun & Ha' & Hrec & Hne').
    { done. }
    { simpl. eapply recycle_segment_nonempty; eauto. }
    { simpl. lra. }
    { simpl. lra. }
    exists c', a'. repeat split; try done.
    + intros [|fuel] Hfuel; [lia|].
      assert (Hb : Qle_bool (segment_length s) (distance_since_recycle s) = true).
      { apply Qle_bool_iff.
        assert (0 <= inject_Z (Z.of_nat n))%Q
          by (change 0%Q with (inject_Z 0); rewrite <- Zle_Qle; lia).
        nra. }
      simpl. rewrite Hb, Hc1. simpl. fold s1.
      rewrite (Hrun fuel) by lia. reflexivity.
    + rewrite Ha', Qnat_succ. simpl. ring.
    + simpl. rewrite Hc1. exact Hrec.
Qed.

(** Whatever the fuel and the segment length, a loop that returns leaves
    the accumulator non-negative. *)
Lemma recycle_loop_nonneg fuel s s' n :
  recycle_loop fuel s = Some (s', n) ->
  (0 <= distance_since_recycle s)%Q -> (0 <= distance_since_recycle s')%Q.
Proof.
  revert s s' n. induction fuel as [|fuel IH]; intros s s' n; simpl.
  - destruct (Qle_bool _ _); [done|]. by intros [= <- <-].
  - destruct (Qle_bool _ _) eqn:Hb; [|by intros [= <- <-]].
    destruct (Corridor.recycle_segment _) as [c|]; [|done]. simpl.
    destruct (recycle_loop fuel _) as [[s2 n2]|] eqn:Hrec; [|done]. simpl.
    intros [= <- <-] _. eapply IH; [exact Hrec|].
    simpl. apply Qle_bool_iff in Hb. lra.
Qed.

Lemma floor_bounds (x len : Q) :
  (0 < len)%Q -> (0 <= x)%Q ->
  let n := Z.to_nat (Qfloor (x / len)) in
  (inject_Z (Z.of_nat n) * len <= x)%Q /\
  (x < (inject_Z (Z.of_nat n) + 1) * len)%Q /\
  Z.of_nat n = Qfloor (x / len).
Proof.
  intros Hlen Hx n.
  assert (Hq : (0 <= x / len)%Q).
  { apply Qle_shift_div_l; [done | lra]. }
  assert (Hfl : (0 <= Qfloor (x / len))%Z).
  { change 0%Z with (Qfloor 0). by apply Qfloor_resp_le. }
  assert (Hn : Z.of_nat n = Qfloor (x / len)) by (unfold n; lia).
  rewrite Hn.
  pose proof (Qfloor_le (x / len)) as Hlo.
  pose proof (Qlt_floor (x / len)) as Hhi.
  rewrite inject_Z_plus in Hhi. change (inject_Z 1) with 1%Q in Hhi.
  assert (Hxl : (x / len * len == x)%Q) by (field; lra).
  revert Hlo Hhi Hxl. generalize (inject_Z (Qfloor (x / len))), (x / len)%Q.
  intros fl q Hlo Hhi Hxl. repeat split; nra.
Qed.

End TriggerFacts.

(** ** Facts about the telemetry sink *)

Section LoggerFacts.

Lemma logger_init_eq (fs : FileSystem) (f : string) :
  DataLogger.init fs f
  = Some (match fs !! f with Some _ => fs | None => <[f := []]> fs end,
          DataLogger.mk f ["timestamp"; "position"; "velocity"]
            (File.mk f (match fs !! f with
                        | Some _ => []
                        | None => [header_row]
                        end) false)).
Proof.
  unfold DataLogger.init, File.isfile, File.open_append.
  destruct (fs !! f); reflexivity.
Qed.

Lemma writerow_fields (f : File.t) (timestamp position velocity : Q) :
  DictWriter.writerow ["timestamp"; "position"; "velocity"] f
    (<["timestamp" := timestamp]>
       (<["position" := position]> (<["velocity" := velocity]> ∅)))
  = File.write f (data_row (timestamp, position, velocity)).
Proof.
  unfold DictWriter.writerow, data_row. simpl.
  rewrite lookup_insert_eq.
  rewrite (lookup_insert_ne _ "timestamp" "position") by done.
  rewrite lookup_insert_eq.
  rewrite (lookup_insert_ne _ "timestamp" "velocity") by done.
  rewrite (lookup_insert_ne _ "position" "velocity") by done.
  rewrite lookup_insert_eq. reflexivity.
Qed.

(** [log] on an open logger succeeds and leaves it open. *)
Lemma log_total (fs : FileSystem) lg timestamp position velocity :
  File.closed (DataLogger.file lg) = false ->
  exists fs' lg',
    DataLogger.log fs lg timestamp position velocity = Some (fs', lg') /\
    File.closed (DataLogger.file lg') = false.
Proof.
  intros Hopen. unfold DataLogger.log, DictWriter.writerow, File.write.
  rewrite Hopen. simpl. eauto.
Qed.

(** [log] on a logger made by [init]: the pending rows and the new row
    reach the file, in this order. *)
Lemma log_eq (fs : FileSystem) f buf timestamp position velocity :
  DataLogger.log fs
    (DataLogger.mk f ["timestamp"; "position"; "velocity"] (File.mk f buf false))
    timestamp position velocity
  = Some (<[f := (default [] (fs !! f) ++ buf
                  ++ [data_row (timestamp, position, velocity)])%list]> fs,
          DataLogger.mk f ["timestamp"; "position"; "velocity"]
            (File.mk f [] false)).
Proof.
  unfold DataLogger.log. cbn [DataLogger.fieldnames DataLogger.file].
  rewrite writerow_fields. reflexivity.
Qed.

Lemma log_all_eq (rs : list (Q * Q * Q)) (fs : FileSystem) f old :
  fs !! f = Some old ->
  log_all fs
    (DataLogger.mk f ["timestamp"; "position"; "velocity"] (File.mk f [] false)) rs
  = Some (<[f := (old ++ map data_row rs)%list]> fs,
          DataLogger.mk f ["timestamp"; "position"; "velocity"]
            (File.mk f [] false)).
Proof.
  revert fs old. induction rs as [|[[ts pos] vel] rs IH]; intros fs old Hold.
  - simpl. rewrite app_nil_r, insert_id by done. reflexivity.
  - cbn [log_all]. rewrite log_eq. cbn [mbind option_bind].
    rewrite Hold. cbn [default app].
    erewrite IH by apply lookup_insert_eq.
    rewrite insert_insert_eq, <- app_assoc. reflexivity.
Qed.

(** At least one record written through a logger with pending rows. *)
Lemma log_all_cons (r : Q * Q * Q) (rs : list (Q * Q * Q)) (fs : FileSystem)
    f buf old :
  fs !! f = Some old ->
  log_all fs
    (DataLogger.mk f ["timestamp"; "position"; "velocity"] (File.mk f buf false))
    (r :: rs)
  = Some (<[f := (old ++ buf ++ map data_row (r :: rs))%list]> fs,
          DataLogger.mk f ["timestamp"; "position"; "velocity"]
            (File.mk f [] false)).
Proof.
  intros Hold. destruct r as [[ts pos] vel]. cbn [log_all].
  rewrite log_eq. cbn [mbind option_bind]. rewrite Hold. cbn [default].
  erewrite log_all_eq by apply lookup_insert_eq.
  rewrite insert_insert_eq. cbn [map]. do 3 f_equal.
  rewrite <- !app_assoc. reflexivity.
Qed.

(** Closing flushes the pending rows. *)
Lemma close_eq (fs : FileSystem) f buf old :
  fs !! f = Some old ->
  (DataLogger.close fs
     (DataLogger.mk f ["timestamp"; "position"; "velocity"]
        (File.mk f buf false))).1
  = <[f := (old ++ buf)%list]> fs.
Proof.
  intros Hold. unfold DataLogger.close, File.close.
  cbn [DataLogger.file File.closed File.path File.buffer fst].
  by rewrite Hold.
Qed.

End LoggerFacts.

(** ** Facts about the update task *)

Section UpdateFacts.

Import MousePortal.

(** The velocity chosen by the first block of [update]. *)
Lemma update_velocity_eq s (fwd bwd : bool) :
  key_map s !! "forward" = Some fwd ->
  key_map s !! "backward" = Some bwd ->
  update_velocity s
  = Some (set_player_velocity s
            (if fwd then speed_scaling s
             else if bwd then (- speed_scaling s)%Q else 0%Q)).
Proof.
  intros Hf Hb. unfold update_velocity. rewrite Hf. simpl.
  destruct fwd; [done|]. rewrite Hb. simpl. by destruct bwd.
Qed.

Lemma update_velocity_inv s s1 :
  update_velocity s = Some s1 -> exists v, s1 = set_player_velocity s v.
Proof.
  unfold update_velocity.
  destruct (key_map s !! "forward") as [[|]|]; simpl; [|  |done].
  { intros [= <-]. eauto. }
  destruct (key_map s !! "backward") as [[|]|]; simpl; [| |done];
    intros [= <-]; eauto.
Qed.

Ltac state_simpl :=
  unfold set_player_position, set_player_velocity, set_camera_pos,
    set_key_map, set_corridor, set_distance_since_recycle,
    set_data_logger in *;
  cbn [cfg player_position player_velocity speed_scaling camera_height
       camera_pos key_map corridor segment_length distance_since_recycle
       movement_speed data_logger] in *.

Lemma accept_ready s e : ready s -> ready (accept s e).
Proof.
  intros (Hf & Hb & Hrest).
  assert (Hk : forall k (v : bool),
             is_Some (<[k := v]> (key_map s) !! "forward") /\
             is_Some (<[k := v]> (key_map s) !! "backward")).
  { intros k v. split; apply lookup_insert_is_Some';
      by right. }
  destruct e; simpl; (split; [apply Hk | split; [apply Hk | exact Hrest]]).
Qed.

(** One frame from a ready state: the frame returns with any fuel above
    the number [n] of recycle events, and the result is described field
    by field. *)
Lemma update_ready fs s s1 dt now :
  ready s ->
  update_velocity s = Some s1 ->
  exists fs' s' n,
    (forall fuel, (n <= fuel)%nat ->
       update fuel fs s dt now = Some (fs', s', n)) /\
    ready s' /\
    player_velocity s' = player_velocity s1 /\
    player_position s' = (player_position s + player_velocity s1 * dt)%Q /\
    recycle_n n (corridor s) = Some (corridor s') /\
    segment_length s' = segment_length s /\
    ((0 < player_velocity s1 * dt)%Q ->
       Z.of_nat n
       = Qfloor ((distance_since_recycle s + player_velocity s1 * dt)
                 / segment_length s) /\
       (distance_since_recycle s'
        == Qmod (distance_since_recycle s + player_velocity s1 * dt)
             (segment_length s))%Q) /\
    ((player_velocity s1 * dt <= 0)%Q ->
       n = O /\ distance_since_recycle s' = distance_since_recycle s /\
       corridor s' = corridor s).
Proof.
  intros (Hf & Hb & Hopen & Hlen & Hne & Hacc) Hvel.
  destruct (update_velocity_inv _ _ Hvel) as [v ->].
  unfold update. rewrite Hvel. cbn [mbind option_bind].
  unfold recycle_trigger. state_simpl.
  destruct (Qlt_bool 0 (v * dt)) eqn:Hmove.
  - (* forward motion *)
    apply Qlt_bool_iff in Hmove.
    destruct (floor_bounds (distance_since_recycle s + v * dt)
                (segment_length s) Hlen) as (Hlo & Hhi & Hn); [lra|].
    set (n := Z.to_nat (Qfloor ((distance_since_recycle s + v * dt)
                                / segment_length s))) in *.
    match goal with
    | |- context [recycle_loop _ ?s2] =>
        destruct (recycle_loop_steps n s2 Hlen Hne Hlo Hhi)
          as (c' & a' & Hrun & Ha' & Hrec & Hne')
    end.
    state_simpl.
    match type of Hrun with
    | context [Some (?s3, n)] =>
        destruct (log_total fs (data_logger s3) now (player_position s3)
                    (player_velocity s3) Hopen) as (fs' & lg' & Hlog & Hopen')
    end.
    state_simpl.
    eexists fs', _, n. split.
    { intros fuel Hfuel. rewrite (Hrun fuel Hfuel). cbn [mbind option_bind].
      state_simpl. rewrite Hlog. reflexivity. }
    state_simpl.
    assert (0 <= inject_Z (Z.of_nat n) * segment_length s)%Q.
    { apply Qmult_le_0_compat; [|lra].
      change 0%Q with (inject_Z 0). rewrite <- Zle_Qle. lia. }
    split; [|split; [done|split; [done|split; [done|split; [done|split]]]]].
    + unfold ready. state_simpl. repeat split; try done. rewrite Ha'. lra.
    + intros _. split; [exact Hn|]. unfold Qmod. rewrite Ha', Hn. reflexivity.
    + intros Hle. lra.
  - (* no forward motion *)
    apply Qlt_bool_false in Hmove. cbn [mbind option_bind]. state_simpl.
    destruct (log_total fs (data_logger s) now (player_position s + v * dt)%Q
                v Hopen) as (fs' & lg' & Hlog & Hopen').
    eexists fs', _, O. split.
    { intros fuel _. rewrite Hlog. reflexivity. }
    state_simpl.
    split; [|split; [done|split; [done|split; [done|split; [done|split]]]]].
    + unfold ready. state_simpl. done.
    + intros Hlt. lra.
    + done.
Qed.

(** The loop touches the corridor and the accumulator only. *)
Lemma recycle_loop_fields fuel s s' n :
  recycle_loop fuel s = Some (s', n) ->
  key_map s' = key_map s /\ speed_scaling s' = speed_scaling s /\
  player_position s' = player_position s /\
  player_velocity s' = player_velocity s /\
  data_logger s' = data_logger s.
Proof.
  revert s s' n. induction fuel as [|fuel IH]; intros s s' n; simpl.
  - destruct (Qle_bool _ _); [done|]. by intros [= <- <-].
  - destruct (Qle_bool _ _); [|by intros [= <- <-]].
    destruct (Corridor.recycle_segment _) as [c|]; [|done]. simpl.
    destruct (recycle_loop fuel _) as [[s2 n2]|] eqn:Hrec; [|done]. simpl.
    intros [= <- <-]. apply IH in Hrec. exact Hrec.
Qed.

(** A frame leaves the key state and the speed scaling alone. *)
Lemma update_fields fuel fs s dt now fs' s' n :
  update fuel fs s dt now = Some (fs', s', n) ->
  key_map s' = key_map s /\ speed_scaling s' = speed_scaling s.
Proof.
  unfold update.
  destruct (update_velocity s) as [s1|] eqn:Hvel; [|done].
  destruct (update_velocity_inv _ _ Hvel) as [v ->].
  cbn [mbind option_bind]. unfold recycle_trigger.
  match goal with
  | |- context [if ?b then recycle_loop fuel ?s2 else _] =>
      destruct b; [destruct (recycle_loop fuel s2) as [[s3 n3]|] eqn:Hloop|]
  end; cbn [mbind option_bind]; [|done|].
  - apply recycle_loop_fields in Hloop as (Hk & Hs & _).
    destruct (DataLogger.log _ _ _ _ _) as [[fs1 lg]|]; [|done].
    cbn [mbind option_bind]. intros [= <- <- <-]. state_simpl. done.
  - destruct (DataLogger.log _ _ _ _ _) as [[fs1 lg]|]; [|done].
    cbn [mbind option_bind]. intros [= <- <- <-]. state_simpl. done.
Qed.

(** A frame that returns keeps the accumulator non-negative, whatever
    the configuration. *)
Lemma update_nonneg fuel fs s dt now fs' s' n :
  update fuel fs s dt now = Some (fs', s', n) ->
  (0 <= distance_since_recycle s)%Q -> (0 <= distance_since_recycle s')%Q.
Proof.
  unfold update.
  destruct (update_velocity s) as [s1|] eqn:Hvel; [|done].
  destruct (update_velocity_inv _ _ Hvel) as [v ->].
  cbn [mbind option_bind]. unfold recycle_trigger. state_simpl.
  destruct (Qlt_bool 0 (v * dt)) eqn:Hmove.
  - apply Qlt_bool_iff in Hmove.
    match goal with
    | |- context [recycle_loop fuel ?s2] =>
        destruct (recycle_loop fuel s2) as [[s3 n3]|] eqn:Hloop
    end; cbn [mbind option_bind]; [|done].
    destruct (DataLogger.log _ _ _ _ _) as [[fs1 lg]|]; [|done].
    cbn [mbind option_bind]. intros [= <- <- <-] Hacc. state_simpl.
    apply (recycle_loop_nonneg _ _ _ _ Hloop). state_simpl. lra.
  - cbn [mbind option_bind].
    destruct (DataLogger.log _ _ _ _ _) as [[fs1 lg]|]; [|done].
    cbn [mbind option_bind]. intros [= <- <- <-] Hacc. state_simpl. done.
Qed.

Lemma run_nonneg fuel inputs fs s fs' s' n :
  run fuel fs s inputs = Some (fs', s', n) ->
  (0 <= distance_since_recycle s)%Q -> (0 <= distance_since_recycle s')%Q.
Proof.
  revert fs s n. induction inputs as [|[e|dt now] inputs IH]; intros fs s n; cbn [run].
  - by intros [= <- <- <-].
  - intros Hrun Hacc. apply (IH _ _ _ Hrun). by destruct e.
  - destruct (update fuel fs s dt now) as [[[fs1 s1] n1]|] eqn:Hupd; [|done].
    cbn [mbind option_bind].
    destruct (run fuel fs1 s1 inputs) as [[[fs2 s2] n2]|] eqn:Hrun; [|done].
    cbn [mbind option_bind]. intros [= <- <- <-] Hacc.
    apply (IH _ _ _ Hrun). by apply (update_nonneg _ _ _ _ _ _ _ _ Hupd).
Qed.

Lemma update_velocity_total s :
  ready s -> exists s1, update_velocity s = Some s1.
Proof.
  intros ([fwd Hf] & [bwd Hb] & _). rewrite (update_velocity_eq s fwd bwd) by done.
  eauto.
Qed.

(** Any sequence of inputs from a ready state: with enough fuel the run
    returns, the state stays ready, and the corridor has been recycled
    exactly as many times as the run counted. *)
Lemma run_ready inputs fs s :
  ready s ->
  exists fuel0 fs' s' n,
    (forall fuel, (fuel0 <= fuel)%nat ->
       run fuel fs s inputs = Some (fs', s', n)) /\
    ready s' /\
    recycle_n n (corridor s) = Some (corridor s') /\
    segment_length s' = segment_length s.
Proof.
  revert fs s. induction inputs as [|[e|dt now] inputs IH]; intros fs s Hready.
  - exists O, fs, s, O. done.
  - destruct (IH fs (accept s e) (accept_ready _ e Hready))
      as (fuel0 & fs' & s' & n & Hrun & Hready' & Hrec & Hlen).
    exists fuel0, fs', s', n.
    split; [done|]. split; [done|]. split; [|rewrite Hlen]; by destruct e.
  - destruct (update_velocity_total _ Hready) as [s1 Hs1].
    destruct (update_ready fs s s1 dt now Hready Hs1)
      as (fs1 & s2 & n & Hupd & Hready2 & _ & _ & Hrec & Hlen & _).
    destruct (IH fs1 s2 Hready2)
      as (fuel0 & fs' & s' & m & Hrun & Hready' & Hrec' & Hlen').
    exists (Nat.max n fuel0), fs', s', (n + m)%nat.
    split; [|split; [done|split]].
    + intros fuel Hfuel. cbn [run].
      rewrite (Hupd fuel) by lia. cbn [mbind option_bind].
      rewrite (Hrun fuel) by lia. reflexivity.
    + rewrite recycle_n_add, Hrec. exact Hrec'.
    + congruence.
Qed.

Lemma init_eq fs config :
  init fs config
  = '(fs0, logger) ← DataLogger.init fs (cfg_data_logging_file config);
    Some (fs0,
          {| cfg := config;
             player_position := 0;
             player_velocity := 0;
             speed_scaling := default 5%Q (cfg_speed_scaling config);
             camera_height := default 2%Q (cfg_camera_height config);
             camera_pos := (0%Q, 0%Q, default 2%Q (cfg_camera_height config));
             key_map := <["forward" := false]> (<["backward" := false]> ∅);
             corridor := Corridor.init config;
             segment_length := cfg_segment_length config;
             distance_since_recycle := 0;
             movement_speed := 10;
             data_logger := logger |}).
Proof. reflexivity. Qed.

(** [__init__] cannot fail, and with at least one segment of positive
    length the state it builds is ready. *)
Lemma init_ready fs config :
  exists fs0 s0,
    init fs config = Some (fs0, s0) /\
    corridor s0 = Corridor.init config /\
    segment_length s0 = cfg_segment_length config /\
    distance_since_recycle s0 = 0%Q /\
    player_position s0 = 0%Q /\
    speed_scaling s0 = default 5%Q (cfg_speed_scaling config) /\
    key_map s0 = <["forward" := false]> (<["backward" := false]> ∅) /\
    ((1 <= cfg_num_segments config)%Z -> (0 < cfg_segment_length config)%Q ->
     ready s0).
Proof.
  rewrite init_eq, logger_init_eq. cbn [mbind option_bind].
  eexists _, _. split; [reflexivity|]. state_simpl.
  do 6 (split; [reflexivity|]).
  intros Hnum Hlen. unfold ready. state_simpl.
  split; [by eexists|]. split; [by eexists|]. split; [done|]. split; [done|].
  split; [|lra].
  intros f Hnil.
  assert (Hp : positions f (Corridor.init config) = [])
    by (unfold positions; by rewrite Hnil).
  rewrite init_positions in Hp.
  apply (f_equal length) in Hp. rewrite window_length in Hp. simpl in Hp. lia.
Qed.

End UpdateFacts.

(** ** Properties of the segment ring *)




(** [k] recycle events are [k] recycle operations on every face, with the
    same new positions in the same order. *)
Lemma recycle_n_faces (k : nat) (c c' : Corridor.t) :
  recycle_n k c = Some c' ->
  exists new_ys : list Q,
    length new_ys = k /\
    forall f, recycle_face_all new_ys (face_segments f c) = Some (face_segments f c').
Proof.
  revert c. induction k as [|k IH]; intros c; simpl.
  - intros [= <-]. exists []. done.
  - destruct (Corridor.recycle_segment c) as [c1|] eqn:Hc1; [|done]. simpl.
    intros Hrec. destruct (IH _ Hrec) as (new_ys & Hlen & Hfaces).
    destruct (recycle_segment_faces _ _ Hc1) as (last_left & _ & Hstep & _).
    exists ((getY last_left + Corridor.segment_length c)%Q :: new_ys).
    split; [simpl; by rewrite Hlen|].
    intros f. simpl. rewrite (Hstep f). simpl. apply Hfaces.
Qed.

(** C7.  With at least one segment, the four faces stay in lockstep: after
    any number [k] of recycle events every face has had exactly [k] recycle
    operations applied to the sequence it was built with (the operations
    of one and the same list [new_ys], of length [k]); and after any
    sequence of key events and frames (segment length positive), the
    corridor of the application is the built corridor after exactly as
    many recycle events as the frames fired. *)
Theorem faces_recycled_in_lockstep (config : Config) :
  (1 <= cfg_num_segments config)%Z ->
  (forall k : nat,
     exists (c : Corridor.t) (new_ys : list Q),
       recycle_n k (Corridor.init config) = Some c /\
       length new_ys = k /\
       forall f, recycle_face_all new_ys (face_segments f (Corridor.init config))
                 = Some (face_segments f c)) /\
  ((0 < cfg_segment_length config)%Q ->
   forall (fs : FileSystem) (inputs : list input),
     exists fs0 s0 fuel fs' s' (n : nat) (new_ys : list Q),
       MousePortal.init fs config = Some (fs0, s0) /\
       MousePortal.run fuel fs0 s0 inputs = Some (fs', s', n) /\
       length new_ys = n /\
       forall f, recycle_face_all new_ys (face_segments f (Corridor.init config))
                 = Some (face_segments f (MousePortal.corridor s'))).
Proof.
  intros Hnum. split.
  - intros k.
    destruct (Z.to_nat (cfg_num_segments config)) as [|m] eqn:Hm; [lia|].
    destruct (ring_inv_recycle_n k 0 m _ (ring_inv_init config m Hm))
      as (c & Hc & _ & _).
    destruct (recycle_n_faces _ _ _ Hc) as (new_ys & Hlen & Hfaces).
    exists c, new_ys. done.
  - intros Hlen fs inputs.
    destruct (init_ready fs config)
      as (fs0 & s0 & Hinit & Hcor & _ & _ & _ & _ & _ & Hready).
    destruct (run_ready inputs fs0 s0 (Hready Hnum Hlen))
      as (fuel0 & fs' & s' & n & Hrun & _ & Hrec & _).
    rewrite Hcor in Hrec.
    destruct (recycle_n_faces _ _ _ Hrec) as (new_ys & Hlen' & Hfaces).
    exists fs0, s0, fuel0, fs', s', n, new_ys.
    split; [done|]. split; [by apply Hrun|]. done.
Qed.

Lemma faces_recycled_in_lockstep_witness :
  (exists (c : Corridor.t) (new_ys : list Q),
     recycle_n 6 (Corridor.init demo_cfg) = Some c /\
     length new_ys = 6%nat /\
     forall f, recycle_face_all new_ys (face_segments f (Corridor.init demo_cfg))
               = Some (face_segments f c)) /\
  (exists fs0 s0 fuel fs' s' (n : nat) (new_ys : list Q),
     MousePortal.init ∅ demo_cfg = Some (fs0, s0) /\
     MousePortal.run fuel fs0 s0 [Key arrow_up; Frame 25 0; Frame 8 1]
     = Some (fs', s', n) /\
     length new_ys = n /\
     forall f, recycle_face_all new_ys (face_segments f (Corridor.init demo_cfg))
               = Some (face_segments f (MousePortal.corridor s'))).
Proof.
  destruct (faces_recycled_in_lockstep demo_cfg) as [Hk Hrun]; [simpl; lia|].
  split; [exact (Hk 6%nat)|].
  apply Hrun. simpl. lra.
Defined.

(** ** Properties of the motion controller and of the recycling trigger *)

Lemma Qmod_bounds (x len : Q) :
  (0 < len)%Q -> (0 <= Qmod x len)%Q /\ (Qmod x len < len)%Q.
Proof.
  intros Hlen. unfold Qmod.
  pose proof (Qfloor_le (x / len)) as Hlo.
  pose proof (Qlt_floor (x / len)) as Hhi.
  rewrite inject_Z_plus in Hhi. change (inject_Z 1) with 1%Q in Hhi.
  assert (Hxl : (x / len * len == x)%Q) by (field; lra).
  revert Hlo Hhi Hxl. generalize (inject_Z (Qfloor (x / len))), (x / len)%Q.
  intros fl q Hlo Hhi Hxl. split; nra.
Qed.

Lemma Qnat_add (n m : nat) :
  (inject_Z (Z.of_nat (n + m)) == inject_Z (Z.of_nat n) + inject_Z (Z.of_nat m))%Q.
Proof. by rewrite Nat2Z.inj_add, inject_Z_plus. Qed.

(** Frames with the forward key held and a positive step [d]: the distance
    covered is split between whole segments, each paid with one recycle
    event, and the accumulator, which stays below one segment length. *)
Lemma forward_frames (dt : Q) (nows : list Q) (fs : FileSystem) (s : MousePortal.t) :
  ready s ->
  MousePortal.key_map s !! "forward" = Some true ->
  (0 < MousePortal.speed_scaling s * dt)%Q ->
  (MousePortal.distance_since_recycle s < MousePortal.segment_length s)%Q ->
  exists fuel0 fs' s' (n : nat),
    (forall fuel, (fuel0 <= fuel)%nat ->
       MousePortal.run fuel fs s (map (Frame dt) nows) = Some (fs', s', n)) /\
    (MousePortal.distance_since_recycle s'
     + inject_Z (Z.of_nat n) * MousePortal.segment_length s
     == MousePortal.distance_since_recycle s
        + inject_Z (Z.of_nat (length nows)) * (MousePortal.speed_scaling s * dt))%Q /\
    (0 <= MousePortal.distance_since_recycle s')%Q /\
    (MousePortal.distance_since_recycle s' < MousePortal.segment_length s)%Q /\
    (MousePortal.player_position s'
     == MousePortal.player_position s
        + inject_Z (Z.of_nat (length nows)) * (MousePortal.speed_scaling s * dt))%Q.
Proof.
  revert fs s. induction nows as [|now nows IH]; intros fs s Hready Hkey Hmove Hlt.
  - exists O, fs, s, O. split; [done|].
    destruct Hready as (_ & _ & _ & _ & _ & Hacc).
    change (inject_Z (Z.of_nat 0)) with 0%Q. simpl length.
    change (inject_Z (Z.of_nat 0)) with 0%Q.
    repeat split; try done; ring.
  - assert (Hb : is_Some (MousePortal.key_map s !! "backward")) by apply Hready.
    destruct Hb as [bwd Hb].
    pose proof (update_velocity_eq s true bwd Hkey Hb) as Hvel.
    cbn [MousePortal.set_player_velocity] in Hvel.
    destruct (update_ready fs s _ dt now Hready Hvel)
      as (fs1 & s1 & n1 & Hupd & Hready1 & _ & Hpos & _ & Hlen & Hfwd & _).
    unfold MousePortal.set_player_velocity in Hpos, Hfwd.
    cbn [MousePortal.player_velocity] in Hpos, Hfwd.
    destruct (Hfwd Hmove) as [Hn1 Hacc1].
    destruct (update_fields _ _ _ _ _ _ _ _ (Hupd n1 (Nat.le_refl _))) as [Hk1 Hs1].
    assert (Hlenpos : (0 < MousePortal.segment_length s)%Q) by apply Hready.
    destruct (Qmod_bounds (MousePortal.distance_since_recycle s
                           + MousePortal.speed_scaling s * dt)
                (MousePortal.segment_length s) Hlenpos) as [Hm0 Hm1].
    destruct (IH fs1 s1) as (fuel0 & fs' & s' & n & Hrun & Hsum & Hge & Hlt' & Hpos').
    { done. }
    { by rewrite Hk1. }
    { by rewrite Hs1. }
    { rewrite Hlen, Hacc1. done. }
    exists (Nat.max n1 fuel0), fs', s', (n1 + n)%nat. split.
    { intros fuel Hfuel. cbn [map MousePortal.run].
      rewrite (Hupd fuel) by lia. cbn [mbind option_bind].
      rewrite (Hrun fuel) by lia. reflexivity. }
    rewrite Hlen, Hs1 in *. rewrite Hpos in Hpos'.
    unfold Qmod in Hacc1. rewrite <- Hn1 in Hacc1.
    simpl length. rewrite Qnat_add, Qnat_succ.
    repeat split; try done.
    + rewrite Hacc1 in Hsum. lra.
    + lra.
Qed.

(** C4.  With [segment_length = 10], [num_segments = 5] and
    [speed_scaling = 1], the application starts at position 0 with an
    empty accumulator, and the forward key followed by 37 frames of
    [dt = 1] gives exactly 3 recycle events, the accumulator 7 and the
    position 37. *)
Theorem thirty_seven_unit_ticks (config : Config) (fs : FileSystem) (nows : list Q) :
  cfg_segment_length config = 10%Q ->
  cfg_num_segments config = 5%Z ->
  cfg_speed_scaling config = Some 1%Q ->
  length nows = 37%nat ->
  exists fs0 s0 fuel fs' s',
    MousePortal.init fs config = Some (fs0, s0) /\
    MousePortal.player_position s0 = 0%Q /\
    MousePortal.distance_since_recycle s0 = 0%Q /\
    MousePortal.run fuel fs0 s0 (Key arrow_up :: map (Frame 1) nows)
    = Some (fs', s', 3%nat) /\
    (MousePortal.distance_since_recycle s' == 7)%Q /\
    (MousePortal.player_position s' == 37)%Q.
Proof.
  intros Hlen Hnum Hspeed Hnows.
  destruct (init_ready fs config)
    as (fs0 & s0 & Hinit & _ & Hl0 & Hacc0 & Hpos0 & Hs0 & Hk0 & Hready).
  assert (Hr0 : ready s0).
  { apply Hready; [rewrite Hnum; lia | rewrite Hlen; lra]. }
  rewrite Hspeed in Hs0. simpl in Hs0.
  pose proof (accept_ready s0 arrow_up Hr0) as Hr1.
  destruct (forward_frames 1 nows fs0 (MousePortal.accept s0 arrow_up) Hr1)
    as (fuel0 & fs' & s' & n & Hrun & Hsum & Hge & Hlt & Hpos).
  { simpl. apply lookup_insert_eq. }
  { simpl. rewrite Hs0. lra. }
  { simpl. rewrite Hacc0, Hl0, Hlen. lra. }
  simpl in Hsum, Hlt, Hpos.
  rewrite Hnows, Hs0, Hacc0, Hl0, Hlen in Hsum.
  rewrite Hl0, Hlen in Hlt. rewrite Hnows, Hs0, Hpos0 in Hpos.
  change (inject_Z (Z.of_nat 37)) with 37%Q in Hsum, Hpos.
  assert (Hn : n = 3%nat).
  { assert (H1 : (inject_Z 27 < inject_Z (10 * Z.of_nat n))%Q).
    { rewrite inject_Z_mult. change (inject_Z 10) with 10%Q.
      change (inject_Z 27) with 27%Q. lra. }
    assert (H2 : (inject_Z (10 * Z.of_nat n) <= inject_Z 37)%Q).
    { rewrite inject_Z_mult. change (inject_Z 10) with 10%Q.
      change (inject_Z 37) with 37%Q. lra. }
    rewrite <- Zlt_Qlt in H1. rewrite <- Zle_Qle in H2. lia. }
  subst n. change (inject_Z (Z.of_nat 3)) with 3%Q in Hsum.
  exists fs0, s0, fuel0, fs', s'.
  split; [done|]. split; [done|]. split; [done|].
  split; [apply (Hrun fuel0); lia|]. split; lra.
Qed.

Lemma thirty_seven_unit_ticks_witness :
  exists fs0 s0 fuel fs' s',
    MousePortal.init ∅ demo_cfg = Some (fs0, s0) /\
    MousePortal.player_position s0 = 0%Q /\
    MousePortal.distance_since_recycle s0 = 0%Q /\
    MousePortal.run fuel fs0 s0 (Key arrow_up :: map (Frame 1) (repeat 0%Q 37))
    = Some (fs', s', 3%nat) /\
    (MousePortal.distance_since_recycle s' == 7)%Q /\
    (MousePortal.player_position s' == 37)%Q.
Proof.
  apply (thirty_seven_unit_ticks demo_cfg ∅ (repeat 0%Q 37)); reflexivity.
Defined.

Lemma demo_state_ready : ready demo_state.
Proof.
  unfold ready. simpl.
  split; [by eexists|]. split; [by eexists|]. split; [done|]. split; [lra|].
  split; [|lra].
  intros f; destruct f; vm_compute; intros H; discriminate H.
Qed.

Lemma demo_state_velocity :
  MousePortal.update_velocity demo_state
  = Some (MousePortal.set_player_velocity demo_state 1).
Proof. reflexivity. Qed.



(** C6.  A frame whose move distance is zero or negative fires no recycle
    event and leaves the accumulator and the corridor exactly as they
    were, for any fuel and any accumulated distance (the keys being in
    [key_map] and the log file open, so that the frame does not raise). *)
Theorem no_forward_motion_no_recycle (fuel : nat) (fs : FileSystem)
    (s s1 : MousePortal.t) (dt now : Q) :
  MousePortal.update_velocity s = Some s1 ->
  File.closed (DataLogger.file (MousePortal.data_logger s)) = false ->
  (MousePortal.player_velocity s1 * dt <= 0)%Q ->
  exists fs' s',
    MousePortal.update fuel fs s dt now = Some (fs', s', O) /\
    MousePortal.distance_since_recycle s' = MousePortal.distance_since_recycle s /\
    MousePortal.corridor s' = MousePortal.corridor s.
Proof.
  intros Hvel Hopen Hmove.
  destruct (update_velocity_inv _ _ Hvel) as [v ->].
  unfold MousePortal.update. rewrite Hvel. cbn [mbind option_bind].
  unfold MousePortal.recycle_trigger.
  unfold MousePortal.set_player_velocity, MousePortal.set_player_position,
    MousePortal.set_camera_pos in *.
  cbn [MousePortal.player_velocity MousePortal.player_position
       MousePortal.data_logger MousePortal.camera_height] in *.
  apply Qlt_bool_false in Hmove. rewrite Hmove. cbn [mbind option_bind].
  cbn [MousePortal.player_velocity MousePortal.player_position
       MousePortal.data_logger].
  destruct (log_total fs (MousePortal.data_logger s) now
              (MousePortal.player_position s + v * dt)%Q v Hopen)
    as (fs' & lg' & Hlog & _).
  rewrite Hlog. cbn [mbind option_bind]. eexists _, _. split; [reflexivity|].
  done.
Qed.

Lemma no_forward_motion_no_recycle_witness :
  exists fs' s',
    MousePortal.update 0 ∅ demo_state (-3) 0 = Some (fs', s', O) /\
    MousePortal.distance_since_recycle s' = 0%Q /\
    MousePortal.corridor s' = Corridor.init demo_cfg.
Proof.
  apply (no_forward_motion_no_recycle 0 ∅ demo_state _ (-3) 0 demo_state_velocity).
  - reflexivity.
  - simpl. lra.
Defined.

(** C8.  The application starts with the accumulator at 0, and after any
    sequence of key events and frames (any keys, any [dt]) that returns,
    the accumulator is not negative; with at least one segment of positive
    length every such sequence does return, given enough fuel. *)
Theorem accumulator_never_negative (config : Config) (fs : FileSystem)
    (inputs : list input) :
  exists fs0 s0,
    MousePortal.init fs config = Some (fs0, s0) /\
    MousePortal.distance_since_recycle s0 = 0%Q /\
    (forall fuel fs' s' (n : nat),
       MousePortal.run fuel fs0 s0 inputs = Some (fs', s', n) ->
       (0 <= MousePortal.distance_since_recycle s')%Q) /\
    ((1 <= cfg_num_segments config)%Z -> (0 < cfg_segment_length config)%Q ->
     exists fuel fs' s' (n : nat),
       MousePortal.run fuel fs0 s0 inputs = Some (fs', s', n)).
Proof.
  destruct (init_ready fs config)
    as (fs0 & s0 & Hinit & _ & _ & Hacc0 & _ & _ & _ & Hready).
  exists fs0, s0. split; [done|]. split; [done|]. split.
  - intros fuel fs' s' n Hrun. apply (run_nonneg _ _ _ _ _ _ _ Hrun).
    rewrite Hacc0. lra.
  - intros Hnum Hlen.
    destruct (run_ready inputs fs0 s0 (Hready Hnum Hlen))
      as (fuel0 & fs' & s' & n & Hrun & _).
    exists fuel0, fs', s', n. by apply Hrun.
Qed.

Lemma accumulator_never_negative_witness :
  exists fs0 s0 fuel fs' s' (n : nat),
    MousePortal.init ∅ demo_cfg = Some (fs0, s0) /\
    MousePortal.run fuel fs0 s0
      [Key arrow_up; Frame 12 0; Key arrow_up_up; Key arrow_down; Frame 30 1]
    = Some (fs', s', n) /\
    (0 <= MousePortal.distance_since_recycle s')%Q.
Proof.
  destruct (accumulator_never_negative demo_cfg ∅
              [Key arrow_up; Frame 12 0; Key arrow_up_up; Key arrow_down; Frame 30 1])
    as (fs0 & s0 & Hinit & _ & Hnonneg & Htotal).
  destruct Htotal as (fuel & fs' & s' & n & Hrun); [simpl; lia | simpl; lra |].
  exists fs0, s0, fuel, fs', s', n.
  split; [exact Hinit|]. split; [exact Hrun|]. exact (Hnonneg _ _ _ _ Hrun).
Defined.

(** ** Properties of the telemetry sink *)

(** C9.  On a target that does not exist, a session (open, [N] records,
    close) leaves exactly the header line followed by the [N] data lines
    (already on disk before the close when [N >= 1], since every record
    is flushed), and a re-open plus one record appends one data line and
    no header.  On a target that exists, opening and writing a record
    appends the data line to the old contents, without a header. *)
Theorem header_written_once (fs : FileSystem) (f : string)
    (rs : list (Q * Q * Q)) (r : Q * Q * Q) :
  (fs !! f = None ->
   exists fs1 lg1 fs2 lg2 fs4 lg4 fs5 lg5,
     DataLogger.init fs f = Some (fs1, lg1) /\
     log_all fs1 lg1 rs = Some (fs2, lg2) /\
     (rs <> [] -> fs2 !! f = Some (header_row :: map data_row rs)) /\
     (DataLogger.close fs2 lg2).1 !! f = Some (header_row :: map data_row rs) /\
     DataLogger.init (DataLogger.close fs2 lg2).1 f = Some (fs4, lg4) /\
     log_all fs4 lg4 [r] = Some (fs5, lg5) /\
     fs5 !! f = Some (header_row :: map data_row rs ++ [data_row r])%list) /\
  (forall old,
     fs !! f = Some old ->
     exists fs1 lg1 fs2 lg2,
       DataLogger.init fs f = Some (fs1, lg1) /\
       fs1 !! f = Some old /\
       log_all fs1 lg1 (r :: rs) = Some (fs2, lg2) /\
       fs2 !! f = Some (old ++ map data_row (r :: rs))%list).
Proof.
  split.
  - intros Hfresh. rewrite logger_init_eq, Hfresh.
    assert (H1 : (<[f := []]> fs : FileSystem) !! f = Some []) by apply lookup_insert_eq.
    destruct rs as [|r0 rs].
    + eexists _, _, _, _. do 4 eexists.
      split; [reflexivity|]. split; [reflexivity|]. split; [done|].
      rewrite (close_eq _ _ _ _ H1). cbn [app map].
      split; [apply lookup_insert_eq|].
      rewrite logger_init_eq, lookup_insert_eq.
      split; [reflexivity|].
      erewrite log_all_cons by apply lookup_insert_eq.
      split; [reflexivity|]. apply lookup_insert_eq.
    + eexists _, _, _, _. do 4 eexists.
      split; [reflexivity|].
      erewrite log_all_cons by exact H1.
      split; [reflexivity|]. cbn [app].
      split; [intros _; apply lookup_insert_eq|].
      erewrite close_eq by apply lookup_insert_eq. rewrite app_nil_r.
      split; [apply lookup_insert_eq|].
      rewrite logger_init_eq, lookup_insert_eq.
      split; [reflexivity|].
      erewrite log_all_cons by apply lookup_insert_eq.
      split; [reflexivity|]. rewrite lookup_insert_eq. reflexivity.
  - intros old Hold. rewrite logger_init_eq, Hold.
    eexists _, _, _, _. split; [reflexivity|]. split; [exact Hold|].
    erewrite log_all_cons by exact Hold.
    split; [reflexivity|]. rewrite lookup_insert_eq. reflexivity.
Qed.

Lemma header_written_once_witness :
  (exists fs1 lg1 fs2 lg2 fs4 lg4 fs5 lg5,
     DataLogger.init ∅ "log.csv" = Some (fs1, lg1) /\
     log_all fs1 lg1 [(0, 1, 1); (1, 2, 1)]%Q = Some (fs2, lg2) /\
     (DataLogger.close fs2 lg2).1 !! "log.csv"
     = Some [header_row; data_row (0, 1, 1)%Q; data_row (1, 2, 1)%Q] /\
     DataLogger.init (DataLogger.close fs2 lg2).1 "log.csv" = Some (fs4, lg4) /\
     log_all fs4 lg4 [(2, 3, 1)%Q] = Some (fs5, lg5) /\
     fs5 !! "log.csv"
     = Some [header_row; data_row (0, 1, 1)%Q; data_row (1, 2, 1)%Q;
             data_row (2, 3, 1)%Q]) /\
  (exists fs1 lg1 fs2 lg2,
     DataLogger.init {["log.csv" := [header_row]]} "log.csv" = Some (fs1, lg1) /\
     log_all fs1 lg1 [(2, 3, 1)%Q] = Some (fs2, lg2) /\
     fs2 !! "log.csv" = Some [header_row; data_row (2, 3, 1)%Q]).
Proof.
  split.
  - destruct (proj1 (header_written_once ∅ "log.csv" [(0, 1, 1); (1, 2, 1)]%Q
                       (2, 3, 1)%Q))
      as (fs1 & lg1 & fs2 & lg2 & fs4 & lg4 & fs5 & lg5
          & H1 & H2 & _ & H3 & H4 & H5 & H6).
    + apply lookup_empty.
    + exists fs1, lg1, fs2, lg2, fs4, lg4, fs5, lg5. done.
  - destruct (proj2 (header_written_once {["log.csv" := [header_row]]}
                       "log.csv" [] (2, 3, 1)%Q) [header_row])
      as (fs1 & lg1 & fs2 & lg2 & H1 & _ & H2 & H3).
    + apply lookup_singleton_eq.
    + exists fs1, lg1, fs2, lg2. done.
Defined.

(** * Further properties of the script *)

(** ** Fuel, and what a frame that returns has done *)

Section FrameFacts.

Import MousePortal.

Ltac frame_simpl :=
  unfold set_player_position, set_player_velocity, set_camera_pos,
    set_key_map, set_corridor, set_distance_since_recycle,
    set_data_logger in *;
  cbn [cfg player_position player_velocity speed_scaling camera_height
       camera_pos key_map corridor segment_length distance_since_recycle
       movement_speed data_logger] in *.

(** Spare fuel does not change the outcome of the loop. *)
Lemma recycle_loop_mono fuel fuel' s r :
  recycle_loop fuel s = Some r -> (fuel <= fuel')%nat ->
  recycle_loop fuel' s = Some r.
Proof.
  revert fuel' s r. induction fuel as [|fuel IH]; intros fuel' s r.
  - simpl. destruct (Qle_bool _ _) eqn:Hb; [done|].
    intros H _. destruct fuel'; simpl; by rewrite Hb.
  - simpl. destruct (Qle_bool _ _) eqn:Hb.
    + destruct (Corridor.recycle_segment _) as [c|] eqn:Hc; [|done].
      cbn [mbind option_bind].
      destruct (recycle_loop fuel _) as [[s2 n2]|] eqn:Hrec; [|done].
      cbn [mbind option_bind]. intros [= <-] Hle.
      destruct fuel' as [|fuel']; [lia|]. simpl. rewrite Hb, Hc.
      cbn [mbind option_bind]. rewrite (IH fuel' _ _ Hrec) by lia. reflexivity.
    + intros H _. destruct fuel'; simpl; by rewrite Hb.
Qed.

Lemma update_mono fuel fuel' fs s dt now r :
  update fuel fs s dt now = Some r -> (fuel <= fuel')%nat ->
  update fuel' fs s dt now = Some r.
Proof.
  unfold update. destruct (update_velocity s) as [s1|]; [|done].
  cbn [mbind option_bind]. unfold recycle_trigger.
  destruct (Qlt_bool 0 _); [|done].
  match goal with
  | |- context [recycle_loop fuel ?s2] =>
      destruct (recycle_loop fuel s2) as [r2|] eqn:Hloop; [|done]
  end.
  intros H Hle. by rewrite (recycle_loop_mono _ _ _ _ Hloop Hle).
Qed.

(** The loop keeps the configuration, the camera and the speeds. *)
Lemma recycle_loop_camera fuel s s' n :
  recycle_loop fuel s = Some (s', n) ->
  cfg s' = cfg s /\ camera_pos s' = camera_pos s /\
  camera_height s' = camera_height s /\ movement_speed s' = movement_speed s /\
  segment_length s' = segment_length s.
Proof.
  revert s s' n. induction fuel as [|fuel IH]; intros s s' n; simpl.
  - destruct (Qle_bool _ _); [done|]. by intros [= <- <-].
  - destruct (Qle_bool _ _); [|by intros [= <- <-]].
    destruct (Corridor.recycle_segment _) as [c|]; [|done]. simpl.
    destruct (recycle_loop fuel _) as [[s2 n2]|] eqn:Hrec; [|done]. simpl.
    intros [= <- <-]. apply IH in Hrec. exact Hrec.
Qed.

(** The corridor after the loop is the corridor after as many recycle
    events as the loop counted. *)
Lemma recycle_loop_corridor fuel s s' n :
  recycle_loop fuel s = Some (s', n) ->
  recycle_n n (corridor s) = Some (corridor s').
Proof.
  revert s s' n. induction fuel as [|fuel IH]; intros s s' n; simpl.
  - destruct (Qle_bool _ _); [done|]. by intros [= <- <-].
  - destruct (Qle_bool _ _); [|by intros [= <- <-]].
    destruct (Corridor.recycle_segment _) as [c|] eqn:Hc; [|done]. simpl.
    destruct (recycle_loop fuel _) as [[s2 n2]|] eqn:Hrec; [|done]. simpl.
    intros [= <- <-]. apply IH in Hrec. simpl. rewrite Hc. exact Hrec.
Qed.

(** Whatever the state, a frame that returns has set the camera on the
    player, logged the new position and velocity once, and kept the
    configuration. *)
Lemma update_effects fuel fs s dt now fs' s' n :
  update fuel fs s dt now = Some (fs', s', n) ->
  camera_pos s' = (0%Q, player_position s', camera_height s') /\
  camera_height s' = camera_height s /\
  cfg s' = cfg s /\
  segment_length s' = segment_length s /\
  player_position s' = (player_position s + player_velocity s' * dt)%Q /\
  recycle_n n (corridor s) = Some (corridor s') /\
  DataLogger.log fs (data_logger s) now (player_position s') (player_velocity s')
  = Some (fs', data_logger s').
Proof.
  unfold update.
  destruct (update_velocity s) as [s1|] eqn:Hvel; [|done].
  destruct (update_velocity_inv _ _ Hvel) as [v ->].
  cbn [mbind option_bind]. unfold recycle_trigger. frame_simpl.
  destruct (Qlt_bool 0 (v * dt)).
  - match goal with
    | |- context [recycle_loop fuel ?s2] =>
        destruct (recycle_loop fuel s2) as [[s3 n3]|] eqn:Hloop
    end; cbn [mbind option_bind]; [|done].
    destruct (recycle_loop_fields _ _ _ _ Hloop) as (_ & _ & Hp & Hv & Hlg).
    destruct (recycle_loop_camera _ _ _ _ Hloop) as (Hcfg & Hcam & Hh & _ & Hlen).
    pose proof (recycle_loop_corridor _ _ _ _ Hloop) as Hcor.
    frame_simpl. rewrite Hlg, Hp, Hv.
    destruct (DataLogger.log _ _ _ _ _) as [[fs1 lg]|] eqn:Hlog; [|done].
    cbn [mbind option_bind]. intros [= <- <- <-]. frame_simpl.
    rewrite Hcam, Hh. done.
  - cbn [mbind option_bind]. frame_simpl.
    destruct (DataLogger.log _ _ _ _ _) as [[fs1 lg]|] eqn:Hlog; [|done].
    cbn [mbind option_bind]. intros [= <- <- <-]. frame_simpl. done.
Qed.

(** From a ready state, what [update_ready] promises holds of every frame
    that returns, whatever its fuel. *)
Lemma update_ready_inv fuel fs s s1 dt now fs' s' n :
  ready s ->
  update_velocity s = Some s1 ->
  update fuel fs s dt now = Some (fs', s', n) ->
  ready s' /\
  player_velocity s' = player_velocity s1 /\
  ((0 < player_velocity s1 * dt)%Q ->
     Z.of_nat n
     = Qfloor ((distance_since_recycle s + player_velocity s1 * dt)
               / segment_length s) /\
     (distance_since_recycle s'
      == Qmod (distance_since_recycle s + player_velocity s1 * dt)
           (segment_length s))%Q) /\
  ((player_velocity s1 * dt <= 0)%Q ->
     n = O /\ distance_since_recycle s' = distance_since_recycle s /\
     corridor s' = corridor s).
Proof.
  intros Hready Hvel Hupd.
  destruct (update_ready fs s s1 dt now Hready Hvel)
    as (fs1 & s2 & n1 & Hall & Hr & Hv & _ & _ & _ & Hfwd & Hbwd).
  pose proof (update_mono _ (Nat.max fuel n1) _ _ _ _ _ Hupd (Nat.le_max_l _ _)) as H1.
  rewrite (Hall (Nat.max fuel n1) (Nat.le_max_r _ _)) in H1.
  injection H1 as <- <- <-. done.
Qed.

(** Induction over a run: a property kept by every key event and by every
    frame that returns holds at the end of every run that returns.  The
    index counts the frames. *)
Lemma run_induct (ok : input -> Prop) (I : nat -> FileSystem -> t -> Prop) :
  (forall j fs s e, ok (Key e) -> I j fs s -> I j fs (accept s e)) ->
  (forall j fuel fs s dt now fs' s' n,
     ok (Frame dt now) -> I j fs s ->
     update fuel fs s dt now = Some (fs', s', n) -> I (S j) fs' s') ->
  forall fuel inputs j fs s fs' s' n,
    Forall ok inputs -> I j fs s ->
    run fuel fs s inputs = Some (fs', s', n) ->
    I (j + count_frames inputs)%nat fs' s'.
Proof.
  intros Hkey Hframe fuel inputs.
  induction inputs as [|[e|dt now] inputs IH]; intros j fs s fs' s' n Hok HI; cbn [run].
  - intros [= <- <- <-]. simpl. by rewrite Nat.add_0_r.
  - intros Hrun. inversion Hok as [|? ? Hk Hrest]; subst.
    simpl. eapply IH; [exact Hrest| |exact Hrun]. by apply Hkey.
  - destruct (update fuel fs s dt now) as [[[fs1 s1] n1]|] eqn:Hupd; [|done].
    cbn [mbind option_bind].
    destruct (run fuel fs1 s1 inputs) as [[[fs2 s2] n2]|] eqn:Hrun; [|done].
    cbn [mbind option_bind]. intros [= <- <- <-].
    inversion Hok as [|? ? Hf Hrest]; subst.
    simpl. rewrite <- Nat.add_succ_comm.
    eapply IH; [exact Hrest| |exact Hrun]. eapply Hframe; eauto.
Qed.

End FrameFacts.

(** ** The corridor: panel count, shape, and the empty corridor *)

Section RingFacts.

Lemma recycle_face_all_length new_ys segs segs' :
  recycle_face_all new_ys segs = Some segs' -> length segs' = length segs.
Proof.
  revert segs. induction new_ys as [|y new_ys IH]; intros segs; simpl.
  - by intros [= <-].
  - destruct (recycle_face y segs) as [segs1|] eqn:H1; [|done]. simpl.
    intros H. rewrite (IH _ H). by apply recycle_face_length in H1.
Qed.

Lemma init_face_length config f :
  length (face_segments f (Corridor.init config))
  = Z.to_nat (cfg_num_segments config).
Proof.
  rewrite <- (length_map getY). fold (positions f (Corridor.init config)).
  by rewrite init_positions, window_length.
Qed.







End RingFacts.

(** X1.  Recycling neither creates nor destroys panels: after
    [build_segments] and any number of [recycle_segment] calls, every face
    holds exactly [num_segments] panels (none when [num_segments <= 0]). *)
Theorem panel_count_constant (config : Config) (k : nat) (c : Corridor.t) (f : Face) :
  recycle_n k (Corridor.init config) = Some c ->
  length (face_segments f c) = Z.to_nat (cfg_num_segments config).
Proof.
  intros Hrec.
  destruct (recycle_n_faces _ _ _ Hrec) as (new_ys & _ & Hfaces).
  rewrite (recycle_face_all_length _ _ _ (Hfaces f)).
  apply init_face_length.
Qed.

Lemma panel_count_constant_witness :
  exists c, recycle_n 7 (Corridor.init demo_cfg) = Some c /\
            length (face_segments Ceiling c) = 5%nat.
Proof.
  eexists. split; [vm_compute; reflexivity|].
  apply (panel_count_constant demo_cfg 7 _ Ceiling). vm_compute. reflexivity.
Defined.

(** X2.  With [num_segments <= 0] the loop of [build_segments] does not
    run, every face stays empty, and [recycle_segment] raises
    ([left_segments[-1]] on an empty list). *)
Theorem recycle_without_segments (config : Config) :
  (cfg_num_segments config <= 0)%Z ->
  (forall f, face_segments f (Corridor.init config) = []) /\
  Corridor.recycle_segment (Corridor.init config) = None.
Proof.
  intros Hnum.
  assert (Hempty : forall f, face_segments f (Corridor.init config) = []).
  { intros f. apply length_zero_iff_nil. rewrite init_face_length. lia. }
  split; [exact Hempty|].
  unfold Corridor.recycle_segment.
  pose proof (Hempty LeftWall) as Hl. simpl in Hl. by rewrite Hl.
Qed.

Lemma recycle_without_segments_witness :
  (forall f, face_segments f
               (Corridor.init (mkConfig 10 6 3 0 "l" "r" "c" "f" 800 600 None None "log"))
             = []) /\
  Corridor.recycle_segment
    (Corridor.init (mkConfig 10 6 3 0 "l" "r" "c" "f" 800 600 None None "log"))
  = None.
Proof.
  apply (recycle_without_segments
           (mkConfig 10 6 3 0 "l" "r" "c" "f" 800 600 None None "log")).
  simpl. lia.
Defined.



(** ** The application: the accumulator and backward motion *)

Section RunFacts.

Import MousePortal.

Lemma init_inv fs config fs0 s0 :
  init fs config = Some (fs0, s0) ->
  corridor s0 = Corridor.init config /\
  segment_length s0 = cfg_segment_length config /\
  distance_since_recycle s0 = 0%Q /\
  player_position s0 = 0%Q /\
  speed_scaling s0 = default 5%Q (cfg_speed_scaling config) /\
  key_map s0 = <["forward" := false]> (<["backward" := false]> ∅) /\
  camera_height s0 = default 2%Q (cfg_camera_height config) /\
  camera_pos s0 = (0%Q, 0%Q, default 2%Q (cfg_camera_height config)) /\
  fs0 = match fs !! cfg_data_logging_file config with
        | Some _ => fs
        | None => <[cfg_data_logging_file config := []]> fs
        end /\
  data_logger s0
  = DataLogger.mk (cfg_data_logging_file config)
      ["timestamp"; "position"; "velocity"]
      (File.mk (cfg_data_logging_file config)
         (match fs !! cfg_data_logging_file config with
          | Some _ => []
          | None => [header_row]
          end) false) /\
  ((1 <= cfg_num_segments config)%Z -> (0 < cfg_segment_length config)%Q ->
   ready s0).
Proof.
  intros Hinit.
  destruct (init_ready fs config)
    as (fs1 & s1 & Hinit1 & H1 & H2 & H3 & H4 & H5 & H6 & H7).
  rewrite Hinit in Hinit1. injection Hinit1 as <- <-.
  rewrite init_eq, logger_init_eq in Hinit. cbn [mbind option_bind] in Hinit.
  injection Hinit as Hfs Hs. subst s0. simpl. done.
Qed.

Lemma accept_fields s e :
  player_position (accept s e) = player_position s /\
  player_velocity (accept s e) = player_velocity s /\
  distance_since_recycle (accept s e) = distance_since_recycle s /\
  corridor (accept s e) = corridor s /\
  segment_length (accept s e) = segment_length s /\
  speed_scaling (accept s e) = speed_scaling s /\
  camera_pos (accept s e) = camera_pos s /\
  camera_height (accept s e) = camera_height s /\
  data_logger (accept s e) = data_logger s.
Proof. by destruct e. Qed.

Lemma ring_inv_head m n c f :
  ring_inv m n c ->
  exists front, head (positions f c) = Some front /\
                (front == inject_Z m * Corridor.segment_length c)%Q.
Proof.
  intros [Hal Hw]. rewrite Hal. simpl in Hw.
  inversion Hw as [|front w rest wrest Hfront Hrest]; subst.
  exists front. done.
Qed.

End RunFacts.

(** X5.  With at least one segment of positive length, after any
    sequence of key events and frames the accumulator is below one
    segment length. *)
Theorem accumulator_below_segment_length (config : Config) (fs : FileSystem)
    (inputs : list input) (fuel : nat) fs0 s0 fs' s' (n : nat) :
  (1 <= cfg_num_segments config)%Z ->
  (0 < cfg_segment_length config)%Q ->
  MousePortal.init fs config = Some (fs0, s0) ->
  MousePortal.run fuel fs0 s0 inputs = Some (fs', s', n) ->
  (MousePortal.distance_since_recycle s' < cfg_segment_length config)%Q.
Proof.
  intros Hnum Hlen Hinit Hrun.
  destruct (init_inv _ _ _ _ Hinit)
    as (_ & Hl0 & Hacc0 & _ & _ & _ & _ & _ & _ & _ & Hready).
  set (I := fun (_ : nat) (_ : FileSystem) (s : MousePortal.t) =>
              ready s /\
              MousePortal.segment_length s = cfg_segment_length config /\
              (MousePortal.distance_since_recycle s < cfg_segment_length config)%Q).
  assert (HI : I (0 + count_frames inputs)%nat fs' s').
  { eapply (run_induct (fun _ => True) I); [| |by apply Forall_true| |exact Hrun].
    - intros j fs1 s e _ (Hr & Hl & Ha).
      destruct (accept_fields s e) as (_ & _ & Ha' & _ & Hl' & _).
      split; [by apply accept_ready|]. by rewrite Hl', Ha'.
    - intros j fuel1 fs1 s dt now fs2 s2 n2 _ (Hr & Hl & Ha) Hupd.
      destruct (update_velocity_total _ Hr) as [s1 Hs1].
      destruct (update_ready_inv _ _ _ _ _ _ _ _ _ Hr Hs1 Hupd)
        as (Hr2 & _ & Hfwd & Hbwd).
      destruct (update_effects _ _ _ _ _ _ _ _ Hupd) as (_ & _ & _ & Hl2 & _).
      split; [exact Hr2|]. split; [congruence|].
      destruct (Qlt_le_dec 0 (MousePortal.player_velocity s1 * dt)) as [Hd|Hd].
      + destruct (Hfwd Hd) as [_ Hacc]. rewrite Hacc, Hl.
        apply Qmod_bounds. exact Hlen.
      + destruct (Hbwd Hd) as (_ & Hacc & _). by rewrite Hacc.
    - split; [by apply Hready|]. split; [exact Hl0|]. rewrite Hacc0. exact Hlen. }
  apply HI.
Qed.

(** Any inputs can be run on the demonstration corridor. *)
Lemma demo_run (inputs : list input) :
  exists fs0 s0 fuel fs' s' (n : nat),
    MousePortal.init ∅ demo_cfg = Some (fs0, s0) /\
    MousePortal.run fuel fs0 s0 inputs = Some (fs', s', n).
Proof.
  destruct (init_ready ∅ demo_cfg)
    as (fs0 & s0 & Hinit & _ & _ & _ & _ & _ & _ & Hready).
  destruct (run_ready inputs fs0 s0) as (fuel & fs' & s' & n & Hrun & _).
  { apply Hready; simpl; [lia | lra]. }
  exists fs0, s0, fuel, fs', s', n. split; [exact Hinit|]. by apply Hrun.
Qed.

Lemma accumulator_below_segment_length_witness :
  exists fs0 s0 fuel fs' s' (n : nat),
    MousePortal.init ∅ demo_cfg = Some (fs0, s0) /\
    MousePortal.run fuel fs0 s0
      [Key arrow_up; Frame 12 0; Key arrow_down; Frame 30 1; Frame 9 2]
    = Some (fs', s', n) /\
    (MousePortal.distance_since_recycle s' < 10)%Q.
Proof.
  destruct (demo_run [Key arrow_up; Frame 12 0; Key arrow_down; Frame 30 1; Frame 9 2])
    as (fs0 & s0 & fuel & fs' & s' & n & Hinit & Hrun).
  exists fs0, s0, fuel, fs', s', n. split; [exact Hinit|]. split; [exact Hrun|].
  refine (accumulator_below_segment_length demo_cfg ∅ _ fuel fs0 s0 fs' s' n
            _ _ Hinit Hrun); [simpl; lia | simpl; lra].
Defined.

(** X8.  Nothing is recycled backward: from the start, with a positive
    speed scaling, the backward key and one frame of positive [dt] put the
    player at a negative position while the front panel of every face is
    still at 0, so the player is in front of the whole corridor. *)
Theorem backward_leaves_the_corridor (config : Config) (fs : FileSystem)
    (dt now : Q) (f : Face) :
  (1 <= cfg_num_segments config)%Z ->
  (0 < cfg_segment_length config)%Q ->
  (0 < default 5%Q (cfg_speed_scaling config))%Q ->
  (0 < dt)%Q ->
  exists fs0 s0 fs' s' front,
    MousePortal.init fs config = Some (fs0, s0) /\
    MousePortal.run 0 fs0 s0 [Key arrow_down; Frame dt now] = Some (fs', s', O) /\
    head (positions f (MousePortal.corridor s')) = Some front /\
    (front == 0)%Q /\
    (MousePortal.player_position s' < front)%Q.
Proof.
  intros Hnum Hlen Hspeed Hdt.
  destruct (init_ready fs config)
    as (fs0 & s0 & Hinit & Hc0 & _ & _ & Hp0 & Hs0 & Hk0 & Hready).
  pose proof (accept_ready s0 arrow_down (Hready Hnum Hlen)) as Hr1.
  assert (Hvel : MousePortal.update_velocity (MousePortal.accept s0 arrow_down)
                 = Some (MousePortal.set_player_velocity
                           (MousePortal.accept s0 arrow_down)
                           (- MousePortal.speed_scaling s0)%Q)).
  { rewrite (update_velocity_eq (MousePortal.accept s0 arrow_down) false true);
      [reflexivity | |]; simpl; rewrite Hk0.
    - rewrite lookup_insert_ne by done. apply lookup_insert_eq.
    - apply lookup_insert_eq. }
  destruct (update_ready fs0 _ _ dt now Hr1 Hvel)
    as (fs' & s' & n & Hupd & _ & _ & Hpos & _ & _ & _ & Hbwd).
  unfold MousePortal.set_player_velocity in Hpos, Hbwd.
  cbn [MousePortal.player_velocity] in Hpos, Hbwd.
  rewrite Hs0 in Hpos, Hbwd.
  destruct Hbwd as (-> & _ & Hcor); [nra|].
  simpl in Hcor, Hpos. rewrite Hc0 in Hcor. rewrite Hp0 in Hpos.
  destruct (ring_inv_head 0 (Nat.pred (Z.to_nat (cfg_num_segments config)))
              (Corridor.init config) f) as (front & Hhead & Hfront).
  { apply ring_inv_init. lia. }
  exists fs0, s0, fs', s', front. split; [exact Hinit|]. split.
  { cbn [MousePortal.run]. rewrite (Hupd O) by lia. reflexivity. }
  rewrite Hcor. split; [exact Hhead|].
  change (inject_Z 0) with 0%Q in Hfront.
  assert (Hf0 : (front == 0)%Q) by (rewrite Hfront; ring).
  split; [exact Hf0|]. rewrite Hpos, Hf0. nra.
Qed.

Lemma backward_leaves_the_corridor_witness :
  exists fs0 s0 fs' s' front,
    MousePortal.init ∅ demo_cfg = Some (fs0, s0) /\
    MousePortal.run 0 fs0 s0 [Key arrow_down; Frame (1 # 4) 0] = Some (fs', s', O) /\
    head (positions LeftWall (MousePortal.corridor s')) = Some front /\
    (front == 0)%Q /\
    (MousePortal.player_position s' < front)%Q.
Proof.
  apply (backward_leaves_the_corridor demo_cfg ∅ (1 # 4) 0 LeftWall);
    simpl; try lia; lra.
Defined.

(** ** The telemetry written by the application *)

(** What a run has written: the log file holds what it held (or the
    header), then one data row per frame; nothing is pending once a frame
    has run; no other file has changed. *)
Lemma run_telemetry (config : Config) (fs : FileSystem) (inputs : list input)
    (fuel : nat) fs0 s0 fs' s' (n : nat) :
  MousePortal.init fs config = Some (fs0, s0) ->
  MousePortal.run fuel fs0 s0 inputs = Some (fs', s', n) ->
  exists buf disk rs,
    MousePortal.data_logger s'
    = DataLogger.mk (cfg_data_logging_file config)
        ["timestamp"; "position"; "velocity"]
        (File.mk (cfg_data_logging_file config) buf false) /\
    fs' !! cfg_data_logging_file config = Some disk /\
    length rs = count_frames inputs /\
    (disk ++ buf
     = match fs !! cfg_data_logging_file config with
       | Some old => old
       | None => [header_row]
       end ++ map data_row rs)%list /\
    ((1 <= count_frames inputs)%nat ->
     buf = [] /\
     exists ts, last rs = Some (ts, MousePortal.player_position s',
                                MousePortal.player_velocity s')) /\
    (forall g, g <> cfg_data_logging_file config -> fs' !! g = fs !! g).
Proof.
  intros Hinit Hrun.
  destruct (init_inv _ _ _ _ Hinit)
    as (_ & _ & _ & _ & _ & _ & _ & _ & Hfs0 & Hlg0 & _).
  set (file := cfg_data_logging_file config) in *.
  set (prefix := match fs !! file with Some old => old | None => [header_row] end).
  set (I := fun (j : nat) (fsc : FileSystem) (s : MousePortal.t) =>
    exists buf disk rs,
      MousePortal.data_logger s
      = DataLogger.mk file ["timestamp"; "position"; "velocity"]
          (File.mk file buf false) /\
      fsc !! file = Some disk /\
      length rs = j /\
      (disk ++ buf = prefix ++ map data_row rs)%list /\
      ((1 <= j)%nat ->
       buf = [] /\
       exists ts, last rs = Some (ts, MousePortal.player_position s,
                                  MousePortal.player_velocity s)) /\
      (forall g, g <> file -> fsc !! g = fs !! g)).
  refine (run_induct (fun _ => True) I _ _ fuel inputs O fs0 s0 fs' s' n
            (Forall_true _ _ (fun _ => Logic.I)) _ Hrun).
  - intros j fs1 s e _ (buf & disk & rs & Hlg & Hdisk & Hlen & Hcat & Hlast & Hother).
    destruct (accept_fields s e) as (Hp & Hv & _ & _ & _ & _ & _ & _ & Hlg').
    exists buf, disk, rs. rewrite Hlg', Hp, Hv. done.
  - intros j fuel1 fs1 s dt now fs2 s2 n2 _
      (buf & disk & rs & Hlg & Hdisk & Hlen & Hcat & _ & Hother) Hupd.
    destruct (update_effects _ _ _ _ _ _ _ _ Hupd) as (_ & _ & _ & _ & _ & _ & Hlog).
    rewrite Hlg, log_eq, Hdisk in Hlog. cbn [default] in Hlog.
    injection Hlog as Hfs2 Hlg2. subst fs2.
    exists [], (disk ++ buf ++ [data_row (now, MousePortal.player_position s2,
                                          MousePortal.player_velocity s2)])%list,
           (rs ++ [(now, MousePortal.player_position s2,
                    MousePortal.player_velocity s2)])%list.
    split; [by rewrite <- Hlg2|]. split; [apply lookup_insert_eq|].
    split; [rewrite length_app; simpl; lia|].
    split; [rewrite app_nil_r, map_app, !app_assoc, Hcat; reflexivity|].
    split.
    + intros _. split; [reflexivity|]. exists now. apply last_snoc.
    + intros g Hg. rewrite lookup_insert_ne by done. by apply Hother.
  - unfold I. rewrite Hlg0, Hfs0. unfold prefix.
    destruct (fs !! file) as [old|] eqn:Hold.
    + exists [], old, [].
      split; [reflexivity|]. split; [exact Hold|]. split; [reflexivity|].
      split; [by rewrite !app_nil_r|]. split; [simpl; lia|]. done.
    + exists [header_row], [], [].
      split; [reflexivity|]. split; [apply lookup_insert_eq|].
      split; [reflexivity|]. split; [reflexivity|]. split; [simpl; lia|].
      intros g Hg. by rewrite lookup_insert_ne.
Qed.

(** X10.  One row per frame: after a run with at least one frame, the log
    file holds what it held before the application started (the header
    line when it did not exist), followed by exactly one data row per
    frame, all on disk; the last row carries the final position and
    velocity. *)
Theorem one_row_per_frame (config : Config) (fs : FileSystem) (inputs : list input)
    (fuel : nat) fs0 s0 fs' s' (n : nat) :
  MousePortal.init fs config = Some (fs0, s0) ->
  MousePortal.run fuel fs0 s0 inputs = Some (fs', s', n) ->
  (1 <= count_frames inputs)%nat ->
  exists (rs : list (Q * Q * Q)) (ts : Q),
    length rs = count_frames inputs /\
    last rs = Some (ts, MousePortal.player_position s',
                    MousePortal.player_velocity s') /\
    fs' !! cfg_data_logging_file config
    = Some (match fs !! cfg_data_logging_file config with
            | Some old => old
            | None => [header_row]
            end ++ map data_row rs)%list.
Proof.
  intros Hinit Hrun Hframes.
  destruct (run_telemetry _ _ _ _ _ _ _ _ _ Hinit Hrun)
    as (buf & disk & rs & _ & Hdisk & Hlen & Hcat & Hlast & _).
  destruct (Hlast Hframes) as (-> & ts & Hts).
  rewrite app_nil_r in Hcat. subst disk.
  exists rs, ts. done.
Qed.

Lemma one_row_per_frame_witness :
  exists fs0 s0 fuel fs' s' (n : nat) (rs : list (Q * Q * Q)) (ts : Q),
    MousePortal.init ∅ demo_cfg = Some (fs0, s0) /\
    MousePortal.run fuel fs0 s0 [Key arrow_up; Frame 12 0; Frame 3 1]
    = Some (fs', s', n) /\
    length rs = 2%nat /\
    last rs = Some (ts, MousePortal.player_position s',
                    MousePortal.player_velocity s') /\
    fs' !! "log.csv" = Some (header_row :: map data_row rs).
Proof.
  destruct (demo_run [Key arrow_up; Frame 12 0; Frame 3 1])
    as (fs0 & s0 & fuel & fs' & s' & n & Hinit & Hrun).
  destruct (one_row_per_frame demo_cfg ∅ [Key arrow_up; Frame 12 0; Frame 3 1]
              fuel fs0 s0 fs' s' n Hinit Hrun) as (rs & ts & Hlen & Hlast & Hfile).
  { simpl. lia. }
  exists fs0, s0, fuel, fs', s', n, rs, ts. done.
Defined.

(** X11.  The application writes to its log file only: after [__init__]
    and any run, every other file is as it was. *)
Theorem other_files_untouched (config : Config) (fs : FileSystem)
    (inputs : list input) (fuel : nat) fs0 s0 fs' s' (n : nat) (g : string) :
  MousePortal.init fs config = Some (fs0, s0) ->
  MousePortal.run fuel fs0 s0 inputs = Some (fs', s', n) ->
  g <> cfg_data_logging_file config ->
  fs' !! g = fs !! g.
Proof.
  intros Hinit Hrun Hg.
  destruct (run_telemetry _ _ _ _ _ _ _ _ _ Hinit Hrun)
    as (buf & disk & rs & _ & _ & _ & _ & _ & Hother).
  by apply Hother.
Qed.

Lemma other_files_untouched_witness :
  exists fs0 s0 fuel fs' s' (n : nat),
    MousePortal.init {["notes.txt" := [[CellStr "keep"]]]} demo_cfg = Some (fs0, s0) /\
    MousePortal.run fuel fs0 s0 [Key arrow_up; Frame 12 0] = Some (fs', s', n) /\
    fs' !! "notes.txt" = Some [[CellStr "keep"]].
Proof.
  destruct (init_ready {["notes.txt" := [[CellStr "keep"]]]} demo_cfg)
    as (fs0 & s0 & Hinit & _ & _ & _ & _ & _ & _ & Hready).
  destruct (run_ready [Key arrow_up; Frame 12 0] fs0 s0)
    as (fuel & fs' & s' & n & Hrun & _).
  { apply Hready; simpl; [lia | lra]. }
  exists fs0, s0, fuel, fs', s', n. split; [exact Hinit|].
  split; [apply Hrun; lia|].
  rewrite (other_files_untouched demo_cfg _ _ fuel fs0 s0 fs' s' n "notes.txt"
             Hinit (Hrun fuel (Nat.le_refl _))).
  - apply lookup_singleton_eq.
  - simpl. discriminate.
Defined.

(** X12.  After [close], the logger accepts no record: [log] raises
    (writing to a closed file) whatever the record, and closing a second
    time changes neither the file system nor the logger. *)
Theorem closed_logger_rejects_records (fs : FileSystem) (lg : DataLogger.t)
    (timestamp position velocity : Q) :
  DataLogger.log (DataLogger.close fs lg).1 (DataLogger.close fs lg).2
    timestamp position velocity = None /\
  DataLogger.close (DataLogger.close fs lg).1 (DataLogger.close fs lg).2
  = DataLogger.close fs lg.
Proof.
  unfold DataLogger.close, File.close.
  destruct (File.closed (DataLogger.file lg)) eqn:Hclosed; cbn [fst snd].
  - unfold DataLogger.log, DictWriter.writerow, File.write.
    cbn [DataLogger.file DataLogger.fieldnames]. rewrite Hclosed. done.
  - unfold DataLogger.log, DictWriter.writerow, File.write.
    cbn [DataLogger.file DataLogger.fieldnames File.closed]. done.
Qed.

(** ** Configurations the script does not guard against *)

Section UnguardedFacts.

Import MousePortal.

(** With a segment length that is not positive, the loop cannot be left
    once entered. *)
Lemma recycle_loop_nonpositive fuel s :
  (segment_length s <= 0)%Q ->
  (segment_length s <= distance_since_recycle s)%Q ->
  recycle_loop fuel s = None.
Proof.
  revert s. induction fuel as [|fuel IH]; intros s Hlen Hacc; simpl;
    rewrite (proj2 (Qle_bool_iff _ _) Hacc); [done|].
  destruct (Corridor.recycle_segment _) as [c|]; [|done]. simpl.
  rewrite IH; [done| exact Hlen | simpl; lra].
Qed.

(** The first frame after the forward key, from the start: when its loop
    does not return, neither does the run. *)
Lemma first_forward_frame fuel fs config fs0 s0 dt now :
  init fs config = Some (fs0, s0) ->
  (0 < default 5%Q (cfg_speed_scaling config) * dt)%Q ->
  recycle_loop fuel
    (set_distance_since_recycle
       (set_camera_pos
          (set_player_position
             (set_player_velocity (accept s0 arrow_up) (speed_scaling s0))
             (0 + speed_scaling s0 * dt)%Q)
          (0%Q, (0 + speed_scaling s0 * dt)%Q, camera_height s0))
       (0 + speed_scaling s0 * dt)%Q) = None ->
  run fuel fs0 s0 [Key arrow_up; Frame dt now] = None.
Proof.
  intros Hinit Hmove Hloop.
  destruct (init_inv _ _ _ _ Hinit)
    as (_ & _ & Hacc0 & Hp0 & Hs0 & Hk0 & _).
  cbn [run]. unfold update.
  rewrite (update_velocity_eq (accept s0 arrow_up) true false).
  - cbn [mbind option_bind]. unfold recycle_trigger.
    cbn [set_player_velocity set_player_position set_camera_pos
         player_velocity player_position distance_since_recycle accept set_key
         set_key_map speed_scaling camera_height].
    rewrite Hs0, Hp0, Hacc0 in *. rewrite (proj2 (Qlt_bool_iff _ _) Hmove).
    cbn [set_player_velocity set_player_position set_camera_pos
         player_velocity player_position distance_since_recycle accept set_key
         set_key_map speed_scaling camera_height] in Hloop.
    rewrite Hloop. reflexivity.
  - simpl. apply lookup_insert_eq.
  - simpl. rewrite Hk0. rewrite lookup_insert_ne by done.
    rewrite lookup_insert_ne by done. apply lookup_insert_eq.
Qed.

End UnguardedFacts.

(** X13.  [num_segments] is not checked: with no segment, the first frame
    whose forward distance reaches one segment length does not return a
    state ([recycle_segment] raises on the empty lists), whatever the
    fuel. *)
Theorem forward_frame_without_segments_raises (config : Config) (fs : FileSystem)
    (dt now : Q) (fuel : nat) :
  (cfg_num_segments config <= 0)%Z ->
  (0 < default 5%Q (cfg_speed_scaling config) * dt)%Q ->
  (cfg_segment_length config <= default 5%Q (cfg_speed_scaling config) * dt)%Q ->
  exists fs0 s0,
    MousePortal.init fs config = Some (fs0, s0) /\
    Corridor.recycle_segment (MousePortal.corridor s0) = None /\
    MousePortal.run fuel fs0 s0 [Key arrow_up; Frame dt now] = None.
Proof.
  intros Hnum Hmove Hreach.
  destruct (init_ready fs config)
    as (fs0 & s0 & Hinit & Hc0 & Hl0 & _ & _ & Hs0 & _).
  assert (Hrec : Corridor.recycle_segment (Corridor.init config) = None).
  { unfold Corridor.recycle_segment.
    assert (Hl : Corridor.left_segments (Corridor.init config) = []).
    { apply length_zero_iff_nil.
      change (Corridor.left_segments (Corridor.init config))
        with (face_segments LeftWall (Corridor.init config)).
      rewrite init_face_length. lia. }
    by rewrite Hl. }
  exists fs0, s0. split; [exact Hinit|]. split; [by rewrite Hc0|].
  apply (first_forward_frame fuel fs config fs0 s0 dt now Hinit Hmove).
  assert (Hb : Qle_bool (MousePortal.segment_length s0)
                 (0 + MousePortal.speed_scaling s0 * dt) = true).
  { apply Qle_bool_iff. rewrite Hl0, Hs0. lra. }
  destruct fuel as [|fuel]; simpl; rewrite Hb; [done|].
  rewrite Hc0, Hrec. done.
Qed.

Lemma forward_frame_without_segments_raises_witness :
  exists fs0 s0,
    MousePortal.init ∅ (mkConfig 10 6 3 0 "l" "r" "c" "f" 800 600 None None "log")
    = Some (fs0, s0) /\
    Corridor.recycle_segment (MousePortal.corridor s0) = None /\
    MousePortal.run 4 fs0 s0 [Key arrow_up; Frame 2 0] = None.
Proof.
  apply (forward_frame_without_segments_raises
           (mkConfig 10 6 3 0 "l" "r" "c" "f" 800 600 None None "log") ∅ 2 0 4);
    simpl; try lia; lra.
Defined.

(** X14.  [segment_length] is not checked: with a segment length that is
    zero or negative, the first frame that moves forward never returns
    (the accumulator never falls below the segment length), whatever the
    fuel. *)
Theorem forward_frame_never_returns_without_length (config : Config)
    (fs : FileSystem) (dt now : Q) (fuel : nat) :
  (cfg_segment_length config <= 0)%Q ->
  (0 < default 5%Q (cfg_speed_scaling config) * dt)%Q ->
  exists fs0 s0,
    MousePortal.init fs config = Some (fs0, s0) /\
    MousePortal.run fuel fs0 s0 [Key arrow_up; Frame dt now] = None.
Proof.
  intros Hlen Hmove.
  destruct (init_ready fs config)
    as (fs0 & s0 & Hinit & _ & Hl0 & _ & _ & Hs0 & _).
  exists fs0, s0. split; [exact Hinit|].
  apply (first_forward_frame fuel fs config fs0 s0 dt now Hinit Hmove).
  apply recycle_loop_nonpositive; simpl; rewrite Hl0, ?Hs0; lra.
Qed.

Lemma forward_frame_never_returns_without_length_witness :
  exists fs0 s0,
    MousePortal.init ∅ (mkConfig 0 6 3 5 "l" "r" "c" "f" 800 600 None None "log")
    = Some (fs0, s0) /\
    MousePortal.run 1000 fs0 s0 [Key arrow_up; Frame (1 # 60) 0] = None.
Proof.
  apply (forward_frame_never_returns_without_length
           (mkConfig 0 6 3 5 "l" "r" "c" "f" 800 600 None None "log")
           ∅ (1 # 60) 0 1000);
    simpl; lra.
Defined.

(** ** Key events between frames *)

Lemma accept_tap_forward (s : MousePortal.t) :
  MousePortal.key_map s !! "forward" = Some false ->
  MousePortal.accept (MousePortal.accept s arrow_up) arrow_up_up = s.
Proof.
  intros Hkey. destruct s as [c pp pv sp ch cp km co sl ds ms dl].
  cbn [MousePortal.key_map] in Hkey.
  unfold MousePortal.accept, MousePortal.set_key, MousePortal.set_key_map.
  cbn [MousePortal.cfg MousePortal.player_position MousePortal.player_velocity
       MousePortal.speed_scaling MousePortal.camera_height
       MousePortal.camera_pos MousePortal.key_map MousePortal.corridor
       MousePortal.segment_length MousePortal.distance_since_recycle
       MousePortal.movement_speed MousePortal.data_logger].
  rewrite insert_insert_eq. rewrite insert_id by exact Hkey. reflexivity.
Qed.

Lemma accept_tap_backward (s : MousePortal.t) :
  MousePortal.key_map s !! "backward" = Some false ->
  MousePortal.accept (MousePortal.accept s arrow_down) arrow_down_up = s.
Proof.
  intros Hkey. destruct s as [c pp pv sp ch cp km co sl ds ms dl].
  cbn [MousePortal.key_map] in Hkey.
  unfold MousePortal.accept, MousePortal.set_key, MousePortal.set_key_map.
  cbn [MousePortal.cfg MousePortal.player_position MousePortal.player_velocity
       MousePortal.speed_scaling MousePortal.camera_height
       MousePortal.camera_pos MousePortal.key_map MousePortal.corridor
       MousePortal.segment_length MousePortal.distance_since_recycle
       MousePortal.movement_speed MousePortal.data_logger].
  rewrite insert_insert_eq. rewrite insert_id by exact Hkey. reflexivity.
Qed.

(** X15.  The keys are sampled by the frames: a key that is pressed and
    released between two frames, while its flag was off, leaves the state
    as it was, so the rest of the run is the run without the two
    events. *)
Theorem tap_between_frames_is_lost (fuel : nat) (fs : FileSystem)
    (s : MousePortal.t) (inputs : list input) :
  (MousePortal.key_map s !! "forward" = Some false ->
   MousePortal.run fuel fs s (Key arrow_up :: Key arrow_up_up :: inputs)
   = MousePortal.run fuel fs s inputs) /\
  (MousePortal.key_map s !! "backward" = Some false ->
   MousePortal.run fuel fs s (Key arrow_down :: Key arrow_down_up :: inputs)
   = MousePortal.run fuel fs s inputs).
Proof.
  split; intros Hkey; cbn [MousePortal.run].
  - by rewrite accept_tap_forward.
  - by rewrite accept_tap_backward.
Qed.

Lemma tap_between_frames_is_lost_witness :
  exists fs0 s0,
    MousePortal.init ∅ demo_cfg = Some (fs0, s0) /\
    MousePortal.run 5 fs0 s0 [Key arrow_up; Key arrow_up_up; Frame 3 0]
    = MousePortal.run 5 fs0 s0 [Frame 3 0].
Proof.
  destruct (init_ready ∅ demo_cfg)
    as (fs0 & s0 & Hinit & _ & _ & _ & _ & _ & Hk0 & _).
  exists fs0, s0. split; [exact Hinit|].
  apply (tap_between_frames_is_lost 5 fs0 s0 [Frame 3 0]).
  rewrite Hk0. apply lookup_insert_eq.
Defined.

(** * The script in finite precision *)

(** ** Roundings *)

Lemma round_binary_Qeq prec emin (x y : Q) :
  (x == y)%Q -> round_binary prec emin x = round_binary prec emin y.
Proof.
  intros Hxy. unfold round_binary. by rewrite (Qred_complete x y Hxy).
Qed.

(** For the binary formats, a number is held exactly as soon as rounding it
    gives it back. *)
Lemma held_by_round_binary prec emin (y : Q) :
  (round_binary prec emin y == y)%Q -> held_by (round_binary prec emin) y.
Proof.
  intros Hy x Hxy. rewrite (round_binary_Qeq prec emin x y Hxy), Hy. by symmetry.
Qed.

Lemma held_by_Qeq (r : Q -> Q) (y y' : Q) :
  (y == y')%Q -> held_by r y -> held_by r y'.
Proof. intros Hyy Hy x Hx. apply Hy. by rewrite Hx. Qed.

Lemma held_by_exact (y : Q) : held_by (double exact) y /\ held_by (single exact) y.
Proof. split; intros x _; reflexivity. Qed.

Lemma Forall2_Qeq_refl (l : list Q) : Forall2 Qeq l l.
Proof. induction l; constructor; [reflexivity | assumption]. Qed.

(** ** The corridor *)

Section RoundedCorridor.

Variable R : Rounding.

Lemma rounded_build_segment_positions c i f :
  positions f (Rounded.build_segment R c i)
  = (positions f c
     ++ [single R (double R (inject_Z i * Corridor.segment_length c))]%Q)%list.
Proof.
  destruct f; unfold positions, Rounded.build_segment, append; simpl;
    rewrite map_app; reflexivity.
Qed.

Lemma rounded_build_fold_segment_length l c :
  Corridor.segment_length (fold_left (Rounded.build_segment R) l c)
  = Corridor.segment_length c.
Proof.
  revert c. induction l as [|i l IH]; intros c; simpl; [done|].
  by rewrite IH.
Qed.

Lemma rounded_build_fold_positions l c f :
  positions f (fold_left (Rounded.build_segment R) l c)
  = (positions f c
     ++ map (fun i => single R (double R (inject_Z i * Corridor.segment_length c))%Q)
          l)%list.
Proof.
  revert c. induction l as [|i l IH]; intros c; simpl.
  - by rewrite app_nil_r.
  - rewrite IH, rounded_build_segment_positions.
    by rewrite <- app_assoc.
Qed.

Lemma rounded_init_segment_length config :
  Corridor.segment_length (Rounded.Corridor_init R config) = cfg_segment_length config.
Proof.
  unfold Rounded.Corridor_init, Rounded.build_segments.
  by rewrite rounded_build_fold_segment_length.
Qed.

(** After [build_segments], the [i]-th panel of every face is at the
    single of the float [i * segment_length]. *)
Lemma rounded_init_positions config f :
  positions f (Rounded.Corridor_init R config)
  = map (fun i => single R (double R (inject_Z i * cfg_segment_length config))%Q)
      (range (cfg_num_segments config)).
Proof.
  unfold Rounded.Corridor_init, Rounded.build_segments.
  rewrite rounded_build_fold_positions. simpl.
  by replace (positions f _) with (@nil Q) by (by destruct f).
Qed.

(** [recycle_segment] is one [recycle_face] per face, all with the single
    of the float computed from the last panel of the left wall. *)
Lemma rounded_recycle_segment_faces c c' :
  Rounded.recycle_segment R c = Some c' ->
  exists last_left,
    last (Corridor.left_segments c) = Some last_left /\
    (forall f, recycle_face
                 (single R (double R (getY last_left + Corridor.segment_length c)))%Q
                 (face_segments f c) = Some (face_segments f c')) /\
    Corridor.segment_length c' = Corridor.segment_length c.
Proof.
  unfold Rounded.recycle_segment.
  destruct (last (Corridor.left_segments c)) as [last_left|] eqn:Hlast; [|done].
  simpl.
  destruct (Corridor.left_segments c) as [|l ls] eqn:Hl; [done|].
  destruct (Corridor.right_segments c) as [|r rs] eqn:Hr; [done|].
  destruct (Corridor.ceiling_segments c) as [|t ts] eqn:Ht; [done|].
  destruct (Corridor.floor_segments c) as [|b bs] eqn:Hb; [done|].
  simpl. intros [= <-]. exists last_left. split; [done|]. split; [|done].
  intros []; simpl; by rewrite ?Hl, ?Hr, ?Ht, ?Hb.
Qed.

Lemma rounded_recycle_segment_total c :
  faces_nonempty c -> is_Some (Rounded.recycle_segment R c).
Proof.
  intros H. unfold Rounded.recycle_segment.
  pose proof (H LeftWall) as Hl. pose proof (H RightWall) as Hr.
  pose proof (H Ceiling) as Ht. pose proof (H Floor) as Hb. simpl in *.
  apply last_is_Some in Hl as Hlast. destruct Hlast as [last_left ->]. simpl.
  destruct (Corridor.left_segments c); [done|].
  destruct (Corridor.right_segments c); [done|].
  destruct (Corridor.ceiling_segments c); [done|].
  destruct (Corridor.floor_segments c); [done|].
  simpl. eauto.
Qed.

Lemma rounded_recycle_segment_nonempty c c' :
  Rounded.recycle_segment R c = Some c' -> faces_nonempty c'.
Proof.
  intros H f Hnil.
  destruct (rounded_recycle_segment_faces _ _ H) as (last_left & _ & Hfaces & _).
  specialize (Hfaces f). rewrite Hnil in Hfaces.
  destruct (face_segments f c) as [|seg rest]; [done|].
  apply recycle_face_length in Hfaces. simpl in Hfaces. lia.
Qed.

(** Whatever the roundings, the four faces carry the same positions: all
    four get the same stored value, at build time and at every recycle
    event. *)
Lemma rounded_aligned_recycle_n k config :
  (1 <= cfg_num_segments config)%Z ->
  exists c,
    Rounded.recycle_n R k (Rounded.Corridor_init R config) = Some c /\
    (forall f, positions f c = positions LeftWall c) /\
    length (positions LeftWall c) = Z.to_nat (cfg_num_segments config).
Proof.
  intros Hnum.
  assert (Hgen : forall k c,
    (forall f, positions f c = positions LeftWall c) ->
    positions LeftWall c <> [] ->
    exists c', Rounded.recycle_n R k c = Some c' /\
               (forall f, positions f c' = positions LeftWall c') /\
               length (positions LeftWall c') = length (positions LeftWall c)).
  { clear. intros k. induction k as [|k IH]; intros c Hal Hne.
    - exists c. done.
    - destruct (rounded_recycle_segment_total c) as [c1 Hc1].
      { intros f Hnil. apply Hne. rewrite <- (Hal f). unfold positions.
        by rewrite Hnil. }
      destruct (rounded_recycle_segment_faces _ _ Hc1) as (last_left & _ & Hfaces & _).
      assert (Hpos : forall f, positions f c1
                = (tail (positions LeftWall c)
                   ++ [single R (double R (getY last_left
                                           + Corridor.segment_length c))]%Q)%list).
      { intros f. unfold positions at 1.
        rewrite (recycle_face_positions _ _ _ (Hfaces f)).
        fold (positions f c). by rewrite Hal. }
      destruct (IH c1) as (c' & Hc' & Hal' & Hlen').
      { intros f. by rewrite !Hpos. }
      { rewrite Hpos. by destruct (tail (positions LeftWall c)). }
      exists c'. simpl. rewrite Hc1. simpl. split; [done|]. split; [done|].
      rewrite Hlen', Hpos, length_app. simpl.
      destruct (positions LeftWall c); [done|]. simpl. lia. }
  destruct (Hgen k (Rounded.Corridor_init R config)) as (c & Hc & Hal & Hlen).
  - intros f. by rewrite !rounded_init_positions.
  - rewrite rounded_init_positions. unfold range.
    destruct (Z.to_nat (cfg_num_segments config)) eqn:Hn; [lia|]. done.
  - exists c. split; [done|]. split; [done|].
    rewrite Hlen, rounded_init_positions, length_map. unfold range.
    by rewrite length_map, length_seq.
Qed.

(** When the multiples of the segment length that are needed are held
    exactly by both formats, nothing rounds and the ring is the window. *)
Lemma rounded_ring_inv_step m n c :
  ring_inv m n c ->
  held_by (double R) (inject_Z (m + Z.of_nat (S n)) * Corridor.segment_length c)%Q ->
  held_by (single R) (inject_Z (m + Z.of_nat (S n)) * Corridor.segment_length c)%Q ->
  exists c', Rounded.recycle_segment R c = Some c' /\ ring_inv (m + 1) n c' /\
             Corridor.segment_length c' = Corridor.segment_length c.
Proof.
  intros Hinv Hd Hs.
  destruct (rounded_recycle_segment_total c) as [c' Hc'].
  { intros f. eapply ring_inv_nonempty; eauto. }
  exists c'. split; [done|].
  destruct (rounded_recycle_segment_faces _ _ Hc') as (last_left & Hlast & Hfaces & Hlen).
  destruct Hinv as [Hal Hw].
  set (new_y := single R (double R (getY last_left + Corridor.segment_length c))%Q).
  assert (Hpos : forall f, positions f c'
            = (tail (positions LeftWall c) ++ [new_y])%list).
  { intros f. unfold positions at 1.
    rewrite (recycle_face_positions _ _ _ (Hfaces f)).
    fold (positions f c). by rewrite Hal. }
  assert (Hl : last (positions LeftWall c) = Some (getY last_left)).
  { unfold positions. simpl.
    change (map getY (Corridor.left_segments c))
      with (getY <$> Corridor.left_segments c).
    by rewrite fmap_last, Hlast. }
  assert (Hy : (getY last_left + Corridor.segment_length c
                == inject_Z (m + Z.of_nat (S n)) * Corridor.segment_length c)%Q).
  { destruct (Forall2_Qeq_last _ _ _ Hw Hl) as (y' & Hl' & Hyy).
    rewrite window_snoc, last_snoc in Hl'. injection Hl' as <-.
    rewrite Hyy, Nat2Z.inj_succ, <- Z.add_1_r, Z.add_assoc, !inject_Z_plus.
    change (inject_Z 1) with 1%Q. ring. }
  assert (Hnew : (new_y == getY last_left + Corridor.segment_length c)%Q).
  { unfold new_y. pose proof (Hd _ Hy) as Hd1. rewrite (Hs _ (Qeq_trans _ _ _ Hd1 Hy)).
    exact Hd1. }
  split; [|exact Hlen]. split.
  - intros f. by rewrite !Hpos.
  - rewrite Hpos, Hlen.
    pose proof (window_shift _ _ _ _ _ Hw Hl) as Hshift.
    eapply Forall2_trans; [| |exact Hshift].
    + intros x y z Hxy Hyz. by rewrite Hxy.
    + apply Forall2_app; [apply Forall2_Qeq_refl|]. by repeat constructor.
Qed.

Lemma rounded_ring_inv_recycle_n k m n c :
  ring_inv m n c ->
  (forall j : Z, (m + Z.of_nat n < j <= m + Z.of_nat n + Z.of_nat k)%Z ->
     held_by (double R) (inject_Z j * Corridor.segment_length c)%Q /\
     held_by (single R) (inject_Z j * Corridor.segment_length c)%Q) ->
  exists c', Rounded.recycle_n R k c = Some c' /\ ring_inv (m + Z.of_nat k) n c' /\
             Corridor.segment_length c' = Corridor.segment_length c.
Proof.
  revert m c. induction k as [|k IH]; intros m c Hinv Hheld.
  - exists c. rewrite Z.add_0_r. done.
  - destruct (rounded_ring_inv_step m n c Hinv) as (c1 & Hc1 & Hinv1 & Hlen1).
    { apply Hheld. lia. }
    { apply Hheld. lia. }
    destruct (IH _ _ Hinv1) as (c' & Hc' & Hinv' & Hlen).
    { intros j Hj. rewrite Hlen1. apply Hheld. lia. }
    exists c'. simpl. rewrite Hc1. simpl. split; [done|].
    replace (m + Z.of_nat (S k))%Z with (m + 1 + Z.of_nat k)%Z by lia.
    split; [done|]. congruence.
Qed.

Lemma rounded_ring_inv_init config n :
  Z.to_nat (cfg_num_segments config) = S n ->
  (forall j : Z, (0 <= j <= Z.of_nat n)%Z ->
     held_by (double R) (inject_Z j * cfg_segment_length config)%Q /\
     held_by (single R) (inject_Z j * cfg_segment_length config)%Q) ->
  ring_inv 0 n (Rounded.Corridor_init R config).
Proof.
  intros Hn Hheld. split.
  - intros f. by rewrite !rounded_init_positions.
  - rewrite rounded_init_positions, rounded_init_segment_length.
    rewrite <- Hn, <- window_range. unfold range.
    apply Forall2_fmap, Forall_Forall2_diag, Forall_forall.
    intros i Hi. apply list_elem_of_fmap in Hi as (j & -> & Hj).
    apply elem_of_seq in Hj.
    destruct (Hheld (Z.of_nat j)) as [Hd Hs]; [lia|].
    pose proof (Hd _ (Qeq_refl _)) as Hd1.
    rewrite (Hs _ Hd1). exact Hd1.
Qed.

End RoundedCorridor.


(** The ring when nothing rounds: after [k] recycle events the positions of
    every face are, in list order, the window at offset [k]. *)
Lemma rounded_ring_window (R : Rounding) (config : Config) (k : nat) (f : Face) :
  (1 <= cfg_num_segments config)%Z ->
  (forall j : Z, (0 <= j < cfg_num_segments config + Z.of_nat k)%Z ->
     held_by (double R) (inject_Z j * cfg_segment_length config)%Q /\
     held_by (single R) (inject_Z j * cfg_segment_length config)%Q) ->
  exists c,
    Rounded.recycle_n R k (Rounded.Corridor_init R config) = Some c /\
    Forall2 Qeq (positions f c)
      (window (Z.of_nat k) (Z.to_nat (cfg_num_segments config))
         (cfg_segment_length config)).
Proof.
  intros Hnum Hheld.
  destruct (Z.to_nat (cfg_num_segments config)) as [|n] eqn:Hn; [lia|].
  assert (Hinit : ring_inv 0 n (Rounded.Corridor_init R config)).
  { apply rounded_ring_inv_init; [exact Hn|]. intros j Hj. apply Hheld. lia. }
  destruct (rounded_ring_inv_recycle_n R k 0 n _ Hinit) as (c & Hc & [Hal Hw] & Hlen).
  { intros j Hj. rewrite rounded_init_segment_length. apply Hheld. lia. }
  rewrite rounded_init_segment_length in Hlen. rewrite Hlen in Hw.
  exists c. split; [exact Hc|]. by rewrite Hal.
Qed.

(** ** Properties of the segment ring, in finite precision *)

(** C1 fails as worded.  With three segments of length [2^24 + 1], the
    panels are built at 0, 16777216 and 33554432, since the nodes store
    single precision; for no integer [m] are these [m], [m + 1] and
    [m + 2] times 16777217. *)
Lemma ring_window_rounding_counterexample :
  (1 <= cfg_num_segments wide_cfg)%Z /\
  positions LeftWall (Rounded.Corridor_init ieee wide_cfg)
  = [0; 16777216; 33554432]%Q /\
  forall m : Z,
    ~ Forall2 Qeq
        (sort_asc (positions LeftWall (Rounded.Corridor_init ieee wide_cfg)))
        (sort_asc (window m (Z.to_nat (cfg_num_segments wide_cfg))
                     (cfg_segment_length wide_cfg))).
Proof.
  assert (Hp : positions LeftWall (Rounded.Corridor_init ieee wide_cfg)
               = [0; 16777216; 33554432]%Q) by (vm_compute; reflexivity).
  split; [simpl; lia|]. split; [exact Hp|].
  intros m H. rewrite Hp in H.
  change (Z.to_nat (cfg_num_segments wide_cfg)) with 3%nat in H.
  change (cfg_segment_length wide_cfg) with 16777217%Q in H.
  rewrite (sort_asc_window (window m 3 16777217) m 3 16777217) in H;
    [|lra|apply Forall2_Qeq_refl].
  replace (sort_asc [0; 16777216; 33554432]%Q) with [0; 16777216; 33554432]%Q in H
    by (vm_compute; reflexivity).
  cbn [window] in H.
  inversion H as [|? ? ? ? H0 H']; subst.
  inversion H' as [|? ? ? ? H1 _]; subst.
  rewrite inject_Z_plus in H1. change (inject_Z 1) with 1%Q in H1.
  revert H0 H1. generalize (inject_Z m). intros x H0 H1. lra.
Qed.

(** C1 as amended.  With at least one segment, after [build_segments] and
    [k] calls of [recycle_segment], provided every multiple
    [j * segment_length] with [0 <= j < num_segments + k] is held exactly
    by the floats and by the single-precision coordinates of the nodes
    (whatever the two roundings are otherwise), the positions of every
    face form, as a multiset, the window
    [m*segment_length, ..., (m+num_segments-1)*segment_length] for an
    integer [m]: sorted ascending, the positions and the window agree, and
    for a positive segment length the sorted positions are the window in
    its own order. *)
Theorem ring_positions_form_window_when_held (R : Rounding) (config : Config)
    (k : nat) (f : Face) :
  (1 <= cfg_num_segments config)%Z ->
  (forall j : Z, (0 <= j < cfg_num_segments config + Z.of_nat k)%Z ->
     held_by (double R) (inject_Z j * cfg_segment_length config)%Q /\
     held_by (single R) (inject_Z j * cfg_segment_length config)%Q) ->
  exists (c : Corridor.t) (m : Z),
    Rounded.recycle_n R k (Rounded.Corridor_init R config) = Some c /\
    Forall2 Qeq (sort_asc (positions f c))
      (sort_asc (window m (Z.to_nat (cfg_num_segments config))
                   (cfg_segment_length config))) /\
    ((0 < cfg_segment_length config)%Q ->
     Forall2 Qeq (sort_asc (positions f c))
       (window m (Z.to_nat (cfg_num_segments config))
          (cfg_segment_length config))).
Proof.
  intros Hnum Hheld.
  destruct (rounded_ring_window R config k f Hnum Hheld) as (c & Hc & Hw).
  exists c, (Z.of_nat k). split; [exact Hc|]. split.
  - by apply sort_asc_Qeq.
  - intros Hpos. by rewrite (sort_asc_window _ _ _ _ Hpos Hw).
Qed.

(** The multiples of 10 below 80 are held by both binary formats. *)
Lemma demo_multiples_held (j : Z) :
  (0 <= j < 8)%Z ->
  held_by (double ieee) (inject_Z j * cfg_segment_length demo_cfg)%Q /\
  held_by (single ieee) (inject_Z j * cfg_segment_length demo_cfg)%Q.
Proof.
  intros Hj.
  assert (Hcases : (j = 0 \/ j = 1 \/ j = 2 \/ j = 3 \/ j = 4 \/ j = 5
                    \/ j = 6 \/ j = 7)%Z) by lia.
  repeat destruct Hcases as [-> | Hcases]; try subst j;
    (split; [apply (held_by_round_binary 53 (-1074))
            | apply (held_by_round_binary 24 (-149))]; vm_compute; reflexivity).
Qed.

Lemma ring_positions_form_window_when_held_witness :
  exists (c : Corridor.t) (m : Z),
    Rounded.recycle_n ieee 3 (Rounded.Corridor_init ieee demo_cfg) = Some c /\
    Forall2 Qeq (sort_asc (positions Floor c)) (window m 5 10).
Proof.
  destruct (ring_positions_form_window_when_held ieee demo_cfg 3 Floor)
    as (c & m & Hc & _ & Hw).
  - simpl. lia.
  - intros j Hj. apply demo_multiples_held. simpl in Hj. lia.
  - exists c, m. split; [exact Hc|]. apply Hw. simpl. lra.
Defined.

(** C10.  Whatever the roundings of floats and of node coordinates, after
    [build_segments] and any number [k] of [recycle_segment] calls, for
    every index [i] below [num_segments] the [i]-th panels of the left
    wall, the right wall, the ceiling and the floor exist and have one and
    the same travel-axis position; and on every corridor without an empty
    face, aligned or not, [recycle_segment] derives one new position from
    the last panel of the left wall and gives it to the recycled panel of
    each of the four faces. *)
Theorem faces_share_positions_and_new_y (R : Rounding) (config : Config)
    (k i : nat) :
  (Z.of_nat i < cfg_num_segments config)%Z ->
  (exists (c : Corridor.t) (y : Q),
     Rounded.recycle_n R k (Rounded.Corridor_init R config) = Some c /\
     forall f, getY <$> (face_segments f c !! i) = Some y) /\
  (forall c0 : Corridor.t,
     faces_nonempty c0 ->
     exists (c' : Corridor.t) (last_left : NodePath),
       Rounded.recycle_segment R c0 = Some c' /\
       last (Corridor.left_segments c0) = Some last_left /\
       forall f, exists front rest,
         face_segments f c0 = front :: rest /\
         face_segments f c'
         = (rest ++ [Rounded.setY R front
                       (double R (getY last_left
                                  + Corridor.segment_length c0)%Q)])%list).
Proof.
  intros Hi. split.
  - destruct (rounded_aligned_recycle_n R k config) as (c & Hc & Hal & Hlen); [lia|].
    assert (Hlt : (i < length (positions LeftWall c))%nat) by lia.
    destruct (lookup_lt_is_Some_2 _ _ Hlt) as [y Hy].
    exists c, y. split; [exact Hc|].
    intros f. rewrite <- list_lookup_fmap.
    change (getY <$> face_segments f c) with (positions f c).
    by rewrite Hal.
  - intros c0 Hne.
    destruct (rounded_recycle_segment_total R c0 Hne) as [c' Hc'].
    destruct (rounded_recycle_segment_faces R _ _ Hc')
      as (last_left & Hlast & Hfaces & _).
    exists c', last_left. split; [done|]. split; [done|].
    intros f. specialize (Hfaces f). specialize (Hne f).
    destruct (face_segments f c0) as [|front rest]; [done|].
    exists front, rest. split; [done|].
    simpl in Hfaces. by inversion Hfaces.
Qed.

Lemma faces_share_positions_and_new_y_witness :
  (exists (c : Corridor.t) (y : Q),
     Rounded.recycle_n ieee 7 (Rounded.Corridor_init ieee wide_cfg) = Some c /\
     forall f, getY <$> (face_segments f c !! 2%nat) = Some y) /\
  (forall c0 : Corridor.t,
     faces_nonempty c0 ->
     exists (c' : Corridor.t) (last_left : NodePath),
       Rounded.recycle_segment ieee c0 = Some c' /\
       last (Corridor.left_segments c0) = Some last_left /\
       forall f, exists front rest,
         face_segments f c0 = front :: rest /\
         face_segments f c'
         = (rest ++ [Rounded.setY ieee front
                       (double ieee (getY last_left
                                     + Corridor.segment_length c0)%Q)])%list).
Proof.
  apply (faces_share_positions_and_new_y ieee wide_cfg 7 2). simpl. lia.
Defined.



(** ** The recycling trigger, in finite precision *)

Section RoundedTrigger.

Import MousePortal.

Variable R : Rounding.

Ltac rounded_simpl :=
  unfold set_player_position, set_player_velocity, set_camera_pos,
    set_key_map, set_corridor, set_distance_since_recycle,
    set_data_logger in *;
  cbn [cfg player_position player_velocity speed_scaling camera_height
       camera_pos key_map corridor segment_length distance_since_recycle
       movement_speed data_logger] in *.

(** The loop runs exactly [n] times when the accumulator lies in
    [[n*len, (n+1)*len)] and none of its [n] subtractions rounds. *)
Lemma rounded_recycle_loop_steps (n : nat) (s : t) :
  (0 < segment_length s)%Q ->
  faces_nonempty (corridor s) ->
  (inject_Z (Z.of_nat n) * segment_length s <= distance_since_recycle s)%Q ->
  (distance_since_recycle s < (inject_Z (Z.of_nat n) + 1) * segment_length s)%Q ->
  (forall j : Z, (1 <= j <= Z.of_nat n)%Z ->
     held_by (double R)
       (distance_since_recycle s - inject_Z j * segment_length s)%Q) ->
  exists c' a',
    (forall fuel, (n <= fuel)%nat ->
       Rounded.recycle_loop R fuel s
       = Some (set_distance_since_recycle (set_corridor s c') a', n)) /\
    (a' == distance_since_recycle s - inject_Z (Z.of_nat n) * segment_length s)%Q /\
    Rounded.recycle_n R n (corridor s) = Some c' /\
    faces_nonempty c'.
Proof.
  revert s. induction n as [|n IH]; intros s Hlen Hne Hlo Hhi Hheld.
  - exists (corridor s), (distance_since_recycle s). repeat split; try done.
    + intros fuel _.
      assert (Hb : Qle_bool (segment_length s) (distance_since_recycle s) = false).
      { apply Qle_bool_false.
        change (inject_Z (Z.of_nat 0)) with 0%Q in Hhi. lra. }
      destruct s; destruct fuel; simpl in *; by rewrite Hb.
    + change (inject_Z (Z.of_nat 0)) with 0%Q. lra.
  - rewrite Qnat_succ in Hlo, Hhi.
    destruct (rounded_recycle_segment_total R _ Hne) as [c1 Hc1].
    assert (Hsub : (double R (distance_since_recycle s - segment_length s)
                    == distance_since_recycle s - segment_length s)%Q).
    { apply (Hheld 1%Z); [lia|]. change (inject_Z 1) with 1%Q. ring. }
    set (s1 := set_distance_since_recycle (set_corridor s c1)
                 (double R (distance_since_recycle s - segment_length s)%Q)).
    destruct (IH s1) as (c' & a' & Hrun & Ha' & Hrec & Hne').
    { done. }
    { simpl. eapply rounded_recycle_segment_nonempty; eauto. }
    { simpl. rewrite Hsub. lra. }
    { simpl. rewrite Hsub. lra. }
    { intros j Hj. simpl.
      apply (held_by_Qeq _ (distance_since_recycle s
                            - inject_Z (j + 1) * segment_length s)%Q).
      - rewrite Hsub, inject_Z_plus. change (inject_Z 1) with 1%Q. ring.
      - apply Hheld. lia. }
    exists c', a'. repeat split; try done.
    + intros [|fuel] Hfuel; [lia|].
      assert (Hb : Qle_bool (segment_length s) (distance_since_recycle s) = true).
      { apply Qle_bool_iff.
        assert (0 <= inject_Z (Z.of_nat n))%Q
          by (change 0%Q with (inject_Z 0); rewrite <- Zle_Qle; lia).
        nra. }
      simpl. rewrite Hb, Hc1. simpl. fold s1.
      rewrite (Hrun fuel) by lia. reflexivity.
    + rewrite Ha', Qnat_succ. simpl. rewrite Hsub. ring.
    + simpl. rewrite Hc1. exact Hrec.
Qed.

(** One forward frame whose addition and subtractions do not round. *)
Lemma rounded_update_forward fs s s1 dt now :
  ready s ->
  update_velocity s = Some s1 ->
  (0 < double R (player_velocity s1 * dt))%Q ->
  (forall j : Z,
     (0 <= j <= Qfloor ((distance_since_recycle s
                         + double R (player_velocity s1 * dt))
                        / segment_length s))%Z ->
     held_by (double R)
       (distance_since_recycle s + double R (player_velocity s1 * dt)
        - inject_Z j * segment_length s)%Q) ->
  exists fs' s' n,
    (forall fuel, (n <= fuel)%nat ->
       Rounded.update R fuel fs s dt now = Some (fs', s', n)) /\
    Z.of_nat n
    = Qfloor ((distance_since_recycle s + double R (player_velocity s1 * dt))
              / segment_length s) /\
    (distance_since_recycle s'
     == Qmod (distance_since_recycle s + double R (player_velocity s1 * dt))
          (segment_length s))%Q.
Proof.
  intros (Hf & Hb & Hopen & Hlen & Hne & Hacc) Hvel Hmove Hheld.
  destruct (update_velocity_inv _ _ Hvel) as [v ->].
  unfold Rounded.update. rewrite Hvel. cbn [mbind option_bind].
  unfold Rounded.recycle_trigger. rounded_simpl.
  rewrite (proj2 (Qlt_bool_iff _ _) Hmove).
  set (d := double R (v * dt)) in *.
  destruct (floor_bounds (distance_since_recycle s + d)
              (segment_length s) Hlen) as (Hlo & Hhi & Hn); [lra|].
  set (n := Z.to_nat (Qfloor ((distance_since_recycle s + d)
                              / segment_length s))) in *.
  assert (Hadd : (double R (distance_since_recycle s + d)
                  == distance_since_recycle s + d)%Q).
  { apply (Hheld 0%Z); [lia|]. change (inject_Z 0) with 0%Q. ring. }
  match goal with
  | |- context [Rounded.recycle_loop R _ ?s2] =>
      destruct (rounded_recycle_loop_steps n s2 Hlen Hne)
        as (c' & a' & Hrun & Ha' & Hrec & Hne')
  end.
  { rounded_simpl. by rewrite Hadd. }
  { rounded_simpl. by rewrite Hadd. }
  { intros j Hj. rounded_simpl.
    apply (held_by_Qeq _ (distance_since_recycle s + d
                          - inject_Z j * segment_length s)%Q).
    - by rewrite Hadd.
    - apply Hheld. lia. }
  rounded_simpl.
  match type of Hrun with
  | context [Some (?s3, n)] =>
      destruct (log_total fs (data_logger s3) now (player_position s3)
                  (player_velocity s3) Hopen) as (fs' & lg' & Hlog & Hopen')
  end.
  rounded_simpl.
  eexists fs', _, n. split.
  { intros fuel Hfuel. rewrite (Hrun fuel Hfuel). cbn [mbind option_bind].
    rounded_simpl. rewrite Hlog. reflexivity. }
  rounded_simpl. split; [exact Hn|].
  unfold Qmod. rewrite Ha', Hadd, Hn. reflexivity.
Qed.

(** The loop and a frame leave the camera height alone, and a frame sets
    the camera to the singles of the new position. *)
Lemma rounded_recycle_loop_fields fuel s s' n :
  Rounded.recycle_loop R fuel s = Some (s', n) ->
  camera_pos s' = camera_pos s /\ camera_height s' = camera_height s /\
  player_position s' = player_position s.
Proof.
  revert s s' n. induction fuel as [|fuel IH]; intros s s' n; simpl.
  - destruct (Qle_bool _ _); [done|]. by intros [= <- <-].
  - destruct (Qle_bool _ _); [|by intros [= <- <-]].
    destruct (Rounded.recycle_segment R _) as [c|]; [|done]. simpl.
    destruct (Rounded.recycle_loop R fuel _) as [[s2 n2]|] eqn:Hrec; [|done]. simpl.
    intros [= <- <-]. apply IH in Hrec. exact Hrec.
Qed.

Lemma rounded_update_camera fuel fs s dt now fs' s' n :
  Rounded.update R fuel fs s dt now = Some (fs', s', n) ->
  camera_pos s'
  = (single R 0, single R (player_position s'), single R (camera_height s')) /\
  camera_height s' = camera_height s.
Proof.
  unfold Rounded.update.
  destruct (update_velocity s) as [s1|] eqn:Hvel; [|done].
  destruct (update_velocity_inv _ _ Hvel) as [v ->].
  cbn [mbind option_bind]. unfold Rounded.recycle_trigger. rounded_simpl.
  destruct (Qlt_bool 0 _).
  - match goal with
    | |- context [Rounded.recycle_loop R fuel ?s2] =>
        destruct (Rounded.recycle_loop R fuel s2) as [[s3 n3]|] eqn:Hloop
    end; cbn [mbind option_bind]; [|done].
    destruct (rounded_recycle_loop_fields _ _ _ _ Hloop) as (Hc & Hh & Hp).
    rounded_simpl.
    destruct (DataLogger.log _ _ _ _ _) as [[fs1 lg]|]; [|done].
    cbn [mbind option_bind]. intros [= <- <- <-]. rounded_simpl.
    by rewrite Hc, Hh, Hp.
  - cbn [mbind option_bind]. rounded_simpl.
    destruct (DataLogger.log _ _ _ _ _) as [[fs1 lg]|]; [|done].
    cbn [mbind option_bind]. intros [= <- <- <-]. rounded_simpl. done.
Qed.

Lemma rounded_run_camera fuel inputs fs s fs' s' n :
  Rounded.run R fuel fs s inputs = Some (fs', s', n) ->
  camera_pos s
  = (single R 0, single R (player_position s), single R (camera_height s)) ->
  camera_pos s'
  = (single R 0, single R (player_position s'), single R (camera_height s')) /\
  camera_height s' = camera_height s.
Proof.
  revert fs s n. induction inputs as [|[e|dt now] inputs IH]; intros fs s n;
    cbn [Rounded.run].
  - by intros [= <- <- <-].
  - intros Hrun Hcam.
    destruct (IH _ _ _ Hrun) as [Hc Hh]; [by destruct e|].
    split; [exact Hc|]. rewrite Hh. by destruct e.
  - destruct (Rounded.update R fuel fs s dt now) as [[[fs1 s1] n1]|] eqn:Hupd; [|done].
    cbn [mbind option_bind].
    destruct (Rounded.run R fuel fs1 s1 inputs) as [[[fs2 s2] n2]|] eqn:Hrun; [|done].
    cbn [mbind option_bind]. intros [= <- <- <-] _.
    destruct (rounded_update_camera _ _ _ _ _ _ _ _ Hupd) as [Hc1 Hh1].
    destruct (IH _ _ _ Hrun Hc1) as [Hc Hh].
    split; [exact Hc|]. congruence.
Qed.

End RoundedTrigger.

(** C3 fails as worded.  With a segment length of one tenth and a speed of
    seven tenths (as floats), the first forward frame of [dt = 1] fires 7
    recycle events and leaves [2^-55] in the accumulator, whereas
    [floor ((a + d) / segment_length)] is 6: the seven subtractions round,
    and the last one is still allowed by the comparison. *)
Lemma trigger_floor_rounding_counterexample :
  exists fs0 s0 fs' s',
    Rounded.MousePortal_init ieee ∅ tenth_cfg = Some (fs0, s0) /\
    MousePortal.distance_since_recycle s0 = 0%Q /\
    MousePortal.segment_length s0 = binary64 (1 # 10) /\
    Rounded.run ieee 8 fs0 s0 [Key arrow_up; Frame 1 0] = Some (fs', s', 7%nat) /\
    MousePortal.distance_since_recycle s' = (1 # 36028797018963968)%Q /\
    Qfloor ((0 + double ieee (binary64 (7 # 10) * 1)) / binary64 (1 # 10)) = 6%Z /\
    ~ (1 # 36028797018963968
       == Qmod (0 + double ieee (binary64 (7 # 10) * 1)) (binary64 (1 # 10)))%Q.
Proof.
  eexists _, _, _, _.
  split; [vm_compute; reflexivity|].
  split; [vm_compute; reflexivity|].
  split; [vm_compute; reflexivity|].
  split; [vm_compute; reflexivity|].
  split; [vm_compute; reflexivity|].
  split; [vm_compute; reflexivity|].
  intros H. vm_compute in H. discriminate H.
Qed.

(** C3 as amended.  In a frame from a ready state (see [ready]) with
    accumulator [a] and a move distance [d > 0] (the float that the frame
    computes), provided the sum [a + d] and the differences
    [a + d - j * segment_length] for [j] up to
    [floor ((a + d) / segment_length)] are held exactly by the floats, the
    frame returns, fires exactly [floor ((a + d) / segment_length)]
    recycle events and leaves the accumulator at
    [(a + d) mod segment_length]; from [a = 0] and
    [d = 2.5 * segment_length] these are 2 events and
    [0.5 * segment_length]. *)
Theorem trigger_fires_floor_events_when_held (R : Rounding) (fs : FileSystem)
    (s s1 : MousePortal.t) (dt now : Q) :
  ready s ->
  MousePortal.update_velocity s = Some s1 ->
  (0 < double R (MousePortal.player_velocity s1 * dt))%Q ->
  (forall j : Z,
     (0 <= j <= Qfloor ((MousePortal.distance_since_recycle s
                         + double R (MousePortal.player_velocity s1 * dt))
                        / MousePortal.segment_length s))%Z ->
     held_by (double R)
       (MousePortal.distance_since_recycle s
        + double R (MousePortal.player_velocity s1 * dt)
        - inject_Z j * MousePortal.segment_length s)%Q) ->
  exists fuel fs' s' (n : nat),
    Rounded.update R fuel fs s dt now = Some (fs', s', n) /\
    Z.of_nat n
    = Qfloor ((MousePortal.distance_since_recycle s
               + double R (MousePortal.player_velocity s1 * dt))
              / MousePortal.segment_length s) /\
    (MousePortal.distance_since_recycle s'
     == Qmod (MousePortal.distance_since_recycle s
              + double R (MousePortal.player_velocity s1 * dt))
          (MousePortal.segment_length s))%Q /\
    ((MousePortal.distance_since_recycle s == 0)%Q ->
     (double R (MousePortal.player_velocity s1 * dt)
      == (5 # 2) * MousePortal.segment_length s)%Q ->
     n = 2%nat /\
     (MousePortal.distance_since_recycle s'
      == (1 # 2) * MousePortal.segment_length s)%Q).
Proof.
  intros Hready Hvel Hmove Hheld.
  destruct (rounded_update_forward R fs s s1 dt now Hready Hvel Hmove Hheld)
    as (fs' & s' & n & Hupd & Hn & Hacc).
  exists n, fs', s', n. split; [by apply Hupd|]. split; [exact Hn|].
  split; [exact Hacc|].
  intros Ha Hd.
  destruct Hready as (_ & _ & _ & Hlen & _).
  assert (Hq : ((MousePortal.distance_since_recycle s
                 + double R (MousePortal.player_velocity s1 * dt))
                / MousePortal.segment_length s == 5 # 2)%Q).
  { rewrite Ha, Hd. field. lra. }
  rewrite Hq in Hn. change (Qfloor (5 # 2)) with 2%Z in Hn.
  split; [lia|].
  rewrite Hacc. unfold Qmod. rewrite Hq.
  change (Qfloor (5 # 2)) with 2%Z. rewrite Ha, Hd. ring.
Qed.

Lemma trigger_fires_floor_events_when_held_witness :
  exists fuel fs' s' (n : nat),
    Rounded.update ieee fuel ∅ demo_state 25 0 = Some (fs', s', n) /\
    n = 2%nat /\
    (MousePortal.distance_since_recycle s' == 5)%Q.
Proof.
  destruct (trigger_fires_floor_events_when_held ieee ∅ demo_state _ 25 0
              demo_state_ready demo_state_velocity)
    as (fuel & fs' & s' & n & Hupd & _ & _ & Hpart).
  - vm_compute. reflexivity.
  - intros j Hj.
    change (Qfloor _) with 2%Z in Hj.
    assert (Hcases : (j = 0 \/ j = 1 \/ j = 2)%Z) by lia.
    repeat destruct Hcases as [-> | Hcases]; try subst j;
      apply (held_by_round_binary 53 (-1074)); vm_compute; reflexivity.
  - destruct Hpart as [Hn Hacc].
    + simpl. lra.
    + vm_compute. reflexivity.
    + exists fuel, fs', s', n. split; [exact Hupd|]. split; [exact Hn|].
      simpl in Hacc. lra.
Defined.

(** ** The camera, in finite precision *)

(** X6.  The camera follows the player up to single precision: whatever
    the roundings, after [__init__] and any sequence of key events and
    frames that returns, the camera holds the singles of
    [(0, player_position, camera_height)], with the camera height of the
    configuration (2 when the key is missing). *)
Theorem camera_holds_single_of_player (R : Rounding) (config : Config)
    (fs : FileSystem) (inputs : list input) (fuel : nat) fs0 s0 fs' s' (n : nat) :
  Rounded.MousePortal_init R fs config = Some (fs0, s0) ->
  Rounded.run R fuel fs0 s0 inputs = Some (fs', s', n) ->
  MousePortal.camera_pos s'
  = (single R 0, single R (MousePortal.player_position s'),
     single R (default 2%Q (cfg_camera_height config))).
Proof.
  intros Hinit Hrun.
  unfold Rounded.MousePortal_init in Hinit.
  rewrite logger_init_eq in Hinit. cbn [mbind option_bind] in Hinit.
  injection Hinit as _ <-.
  destruct (rounded_run_camera R _ _ _ _ _ _ _ Hrun) as [Hc Hh]; [reflexivity|].
  rewrite Hc, Hh. reflexivity.
Qed.

Lemma camera_holds_single_of_player_witness :
  exists fs0 s0 fs' s' (n : nat),
    Rounded.MousePortal_init ieee ∅ tenth_cfg = Some (fs0, s0) /\
    Rounded.run ieee 8 fs0 s0 [Key arrow_up; Frame 1 0; Key arrow_up_up]
    = Some (fs', s', n) /\
    MousePortal.camera_pos s'
    = (single ieee 0, single ieee (MousePortal.player_position s'),
       single ieee (default 2%Q (cfg_camera_height tenth_cfg))).
Proof.
  assert (Hinit : exists fs0 s0,
             Rounded.MousePortal_init ieee ∅ tenth_cfg = Some (fs0, s0)).
  { unfold Rounded.MousePortal_init. rewrite logger_init_eq.
    cbn [mbind option_bind]. eauto. }
  destruct Hinit as (fs0 & s0 & Hinit).
  assert (Hrun : exists fs' s' n,
             Rounded.run ieee 8 fs0 s0 [Key arrow_up; Frame 1 0; Key arrow_up_up]
             = Some (fs', s', n)).
  { revert Hinit. unfold Rounded.MousePortal_init. rewrite logger_init_eq.
    cbn [mbind option_bind]. intros [= <- <-]. vm_compute. eauto. }
  destruct Hrun as (fs' & s' & n & Hrun).
  exists fs0, s0, fs', s', n. split; [exact Hinit|]. split; [exact Hrun|].
  exact (camera_holds_single_of_player ieee tenth_cfg ∅ _ 8 fs0 s0 fs' s' n
           Hinit Hrun).
Defined.

(** ** Without rounding, the script in finite precision is the exact one *)

Lemma rounded_exact_Corridor_init (config : Config) :
  Rounded.Corridor_init exact config = Corridor.init config.
Proof. reflexivity. Qed.

Lemma rounded_exact_recycle_segment (c : Corridor.t) :
  Rounded.recycle_segment exact c = Corridor.recycle_segment c.
Proof. reflexivity. Qed.

Lemma rounded_exact_recycle_loop (fuel : nat) (s : MousePortal.t) :
  Rounded.recycle_loop exact fuel s = MousePortal.recycle_loop fuel s.
Proof.
  revert s. induction fuel as [|fuel IH]; intros s; [reflexivity|].
  simpl. destruct (Qle_bool _ _); [|reflexivity].
  rewrite rounded_exact_recycle_segment.
  destruct (Corridor.recycle_segment _) as [c|]; [|reflexivity].
  simpl. by rewrite IH.
Qed.

Lemma rounded_exact_update fuel fs s dt now :
  Rounded.update exact fuel fs s dt now = MousePortal.update fuel fs s dt now.
Proof.
  unfold Rounded.update, MousePortal.update.
  destruct (MousePortal.update_velocity s) as [s1|]; [|reflexivity].
  cbn [mbind option_bind].
  unfold Rounded.recycle_trigger, MousePortal.recycle_trigger.
  cbn [double single exact].
  destruct (Qlt_bool 0 _); [|reflexivity].
  by rewrite rounded_exact_recycle_loop.
Qed.

Lemma rounded_exact_run fuel fs s inputs :
  Rounded.run exact fuel fs s inputs = MousePortal.run fuel fs s inputs.
Proof.
  revert fs s. induction inputs as [|[e|dt now] inputs IH]; intros fs s;
    cbn [Rounded.run MousePortal.run]; [reflexivity|apply IH|].
  rewrite rounded_exact_update.
  destruct (MousePortal.update fuel fs s dt now) as [[[fs1 s1] n1]|]; [|reflexivity].
  cbn [mbind option_bind]. by rewrite IH.
Qed.

Lemma rounded_exact_MousePortal_init fs config :
  Rounded.MousePortal_init exact fs config = MousePortal.init fs config.
Proof. reflexivity. Qed.
